(** * The query builder of [src/index.js], embedded in Rocq

    [src/index.js] wraps the [pg] client: [select], [selectOne], [insert],
    [update] and [delete] assemble an SQL text and a positional argument
    list, hand both to [query], and reshape what the driver answers.

    The embedding keeps the shape of the source.
    - A JavaScript value is a [value]; an object used as a field map is the
      list of its own enumerable properties in [for ... in] order, each key
      once. Property reads are own-property reads, the keys being column
      names and configuration constants; [buildIndex], whose keys are data,
      also has the members that a plain object inherits from
      [Object.prototype].
    - Numbers are the integer-valued ones ([Z]).
    - The driver ([super.query]) is a parameter: a function from the
      statement and the driver's state to a new state and an answer. Every
      statement handed to it is appended to a log.
    - A promise is the outcome it settles to, or [Unsettled] when neither
      [resolve] nor [reject] is ever called.
    - Console output and timing ([console.log], [process.hrtime]) are left
      out. *)

From Stdlib Require Import ZArith DecimalString Ascii Bool Lia.
From stdpp Require Import gmap strings list fin_maps.

(** Let [simpl] compute [+:+] on text that starts with known characters. *)
#[local] Arguments String.append !_ _ : simpl nomatch.

(** ** JavaScript values *)

#[warnings="-register-all"]
Inductive value : Type :=
  | VUndef
  | VNull
  | VBool (b : bool)
  | VNum (n : Z)
  | VStr (s : string)
  | VArr (items : list value)
  | VObj (props : list (string * value)).

(** A field map, a filter, a result row. *)
Abbreviation obj := (list (string * value)).

(** [if (v)], [!v], [v ? a : b]. *)
Definition truthy (v : value) : bool :=
  match v with
  | VUndef | VNull => false
  | VBool b => b
  | VNum n => negb (n =? 0)%Z
  | VStr s => negb (String.eqb s EmptyString)
  | VArr _ | VObj _ => true
  end.

(** [Object.prototype.hasOwnProperty.call(o, k)] and [o[k]]. *)
Fixpoint own (k : string) (o : obj) : option value :=
  match o with
  | [] => None
  | (k', v) :: rest => if String.eqb k' k then Some v else own k rest
  end.

Definition hasOwnProperty (o : obj) (k : string) : bool :=
  match own k o with Some _ => true | None => false end.

Definition get (o : obj) (k : string) : value :=
  match own k o with Some v => v | None => VUndef end.

Definition keys (o : obj) : list string := List.map fst o.
Definition vals (o : obj) : list value := List.map snd o.

(** ** Conversion to text *)

Definition nat_str (n : nat) : string := NilZero.string_of_uint (Nat.to_uint n).
Definition num_str (n : Z) : string := NilZero.string_of_int (Z.to_int n).

(** [Array.prototype.join] on an array of strings. *)
Definition join (sep : string) (parts : list string) : string :=
  String.concat sep parts.

(** [String(v)], also what [+] with a string and a template literal do.
    An array prints its items joined by commas, [null] and [undefined]
    items as nothing. *)
Fixpoint to_string (v : value) : string :=
  match v with
  | VUndef => "undefined"
  | VNull => "null"
  | VBool true => "true"
  | VBool false => "false"
  | VNum n => num_str n
  | VStr s => s
  | VArr items =>
      join "," (List.map (fun x => match x with
                                   | VUndef | VNull => EmptyString
                                   | _ => to_string x
                                   end) items)
  | VObj _ => "[object Object]"
  end.

(** [typeof v === 'object'] *)
Definition typeof_object (v : value) : bool :=
  match v with
  | VNull | VArr _ | VObj _ => true
  | _ => false
  end.

Fixpoint indexed (i : nat) (items : list value) : obj :=
  match items with
  | [] => []
  | x :: rest => (nat_str i, x) :: indexed (S i) rest
  end.

(** The pairs [(key, v[key])] that [for (let key in v)] visits. *)
Definition for_in (v : value) : obj :=
  match v with
  | VObj props => props
  | VArr items => indexed 0 items
  | _ => []
  end.

(** ** Text search, as [String.prototype] has it *)

Fixpoint starts_with (pat s : string) : bool :=
  match pat, s with
  | EmptyString, _ => true
  | String _ _, EmptyString => false
  | String a pat', String b s' => Ascii.eqb a b && starts_with pat' s'
  end.

Fixpoint drop_chars (n : nat) (s : string) : string :=
  match n, s with
  | O, _ => s
  | S _, EmptyString => EmptyString
  | S n', String _ s' => drop_chars n' s'
  end.

(** [s.includes(pat)]; [s.match(/pat/g)] is truthy exactly then, for a
    pattern of plain letters. *)
Fixpoint includes (pat s : string) : bool :=
  starts_with pat s ||
  match s with
  | EmptyString => false
  | String _ s' => includes pat s'
  end.

(** [s.replace(pat, rep)] with a string pattern: the first occurrence only. *)
Fixpoint replace (pat rep s : string) : string :=
  if starts_with pat s then rep +:+ drop_chars (String.length pat) s
  else match s with
       | EmptyString => EmptyString
       | String c s' => String c (replace pat rep s')
       end.

(** Whether the character [c] occurs in [s]. *)
Fixpoint occurs_in (c : ascii) (s : string) : bool :=
  match s with
  | EmptyString => false
  | String a s' => Ascii.eqb a c || occurs_in c s'
  end.

(** The double quote character, and a quoted identifier. *)
Definition dq : string := String "034" EmptyString.
Definition quoted (name : string) : string := dq +:+ name +:+ dq.

(** ** Configuration (lines 8-31) *)

(** [dbStatusField] is [None] for [null]. [dbStatusValues] declares
    [Active], [Delete] and [Archived]. *)
Record config : Type := Config {
  dbStatusField : option string;
  statusActive : value;
  statusDelete : value;
  statusArchived : value;
  dbSanitizeFields : bool
}.

Definition dbStatusValues (cfg : config) : obj :=
  [("Active", statusActive cfg); ("Delete", statusDelete cfg);
   ("Archived", statusArchived cfg)].

(** The configuration the file ships with. *)
Definition shipped : config :=
  Config (Some "datastateid") VNull VNull VNull false.

(** [dbStatusField] as a value, and whether it is truthy. *)
Definition status_field_value (cfg : config) : value :=
  match dbStatusField cfg with Some f => VStr f | None => VNull end.

Definition status_on (cfg : config) : bool := truthy (status_field_value cfg).

(** ** The driver's answers and the result object *)

(** What [err.args] holds once [query] has tagged an error. *)
Inductive err_args : Type :=
  | ArgsNone
  | ArgsValues (values : list value)
  | ArgsCallback.

Record error : Type := Error { message : string; args : err_args }.

(** [err.args = a] *)
Definition set_args (err : error) (a : err_args) : error :=
  Error (message err) a.

(** The driver calls back with [(err)] alone on failure, so [res] is
    [undefined] there, and with [(null, res)] on success. *)
Inductive response : Type :=
  | Failure (err : error)
  | Success (rows : list obj).

(** [res.irows]: the empty array, or the object built by [buildIndex]. *)
Inductive index_of_rows : Type :=
  | NoIndex
  | IndexBy (groups : gmap string (list obj)).

Record result : Type := Result { rows : list obj; irows : index_of_rows }.

(** A statement handed to the driver: [super.query(sql, callback)] has no
    argument list. *)
Record statement : Type := Statement {
  text : string;
  params : option (list value)
}.

(** What reaches the callback given to [query]. [NotCalled]: an exception
    left [query]'s handler before the callback ran. *)
Inductive called : Type :=
  | CallErr (err : error)
  | CallOk (res : result)
  | NotCalled.

(** What a promise settles to. *)
Inductive outcome (A : Type) : Type :=
  | Resolved (a : A)
  | Rejected (err : error)
  | Unsettled.
Arguments Resolved {A} a.
Arguments Rejected {A} err.
Arguments Unsettled {A}.

(** What the callback of [begin], [abort] or [commit] gets: [callback()]
    with no argument, or what [query] passes on. *)
Inductive verb_called : Type :=
  | Bare_call
  | Through (c : called).

(** What [sanitizeFields] resolves to. *)
Record sanitized : Type := Sanitized { fields : obj; matches : option obj }.

(** What [update] resolves to: [result.rows] or [data.matches], bare or
    inside [{results, updated}]. *)
Inductive written : Type :=
  | Rows (rows : list obj)
  | Kept (matches : obj).

Inductive update_answer : Type :=
  | Bare (results : written)
  | WithStatus (results : written) (updated : bool).

(** ** buildIndex (lines 126-140) *)

(** The members a plain object inherits from [Object.prototype]. *)
Definition prototype_names : list string :=
  ["constructor"; "__defineGetter__"; "__defineSetter__"; "hasOwnProperty";
   "__lookupGetter__"; "__lookupSetter__"; "isPrototypeOf";
   "propertyIsEnumerable"; "toString"; "valueOf"; "__proto__";
   "toLocaleString"].

Definition inherited (k : string) : bool :=
  existsb (String.eqb k) prototype_names.

(** The text of an inherited member, as node prints it: [__proto__] is
    [Object.prototype] itself, [constructor] is [Object], the others are
    native functions under their own name. *)
Definition inherited_text (k : string) : string :=
  if String.eqb k "__proto__" then "[object Object]"
  else if String.eqb k "constructor"
       then "function Object() { [native code] }"
       else "function " +:+ k +:+ "() { [native code] }".

(** The key of [list] under which [buildIndex] files a row: the text of
    [val[index]], the row's own value, or the inherited member when the
    row has no such column and [index] names one, or [undefined]. *)
Definition key_of (index : string) (row : obj) : string :=
  match own index row with
  | Some v => to_string v
  | None => if inherited index then inherited_text index else "undefined"
  end.

(** The body of the [forEach]; [groups] is the source's [list]. Under an
    inherited name [list[key]] is the inherited member: it is truthy, so
    no array is put there, and it has no [push], so the call throws, which
    is the [None] answer. *)
Definition group_row (index : string) (groups : gmap string (list obj))
    (val : obj) : option (gmap string (list obj)) :=
  let key := key_of index val in
  if inherited key then None
  else
    let groups := match groups !! key with
                  | Some _ => groups
                  | None => <[key := []]> groups
                  end in
    Some (<[key := default [] (groups !! key) ++ [val]]> groups).

(** The [forEach] over the rows, up to the first throw. *)
Fixpoint group_rows (index : string) (groups : gmap string (list obj))
    (rows : list obj) : option (gmap string (list obj)) :=
  match rows with
  | [] => Some groups
  | val :: rest =>
      match group_row index groups val with
      | Some groups' => group_rows index groups' rest
      | None => None
      end
  end.

(** [res] is [None] for [undefined]; assigning [res.irows] then throws,
    which is the [None] answer. [res.rows[0].hasOwnProperty(index)] calls
    what the row has under [hasOwnProperty]: a row with a column of that
    name holds a value there, not a function, and the call throws. *)
Definition buildIndex (res : option (list obj)) (index : string)
    : option result :=
  match res with
  | Some rows =>
      match rows with
      | row0 :: _ =>
          if truthy (VStr index) then
            if hasOwnProperty row0 "hasOwnProperty" then None
            else if hasOwnProperty row0 index then
              match group_rows index ∅ rows with
              | Some groups => Some (Result rows (IndexBy groups))
              | None => None
              end
            else Some (Result rows NoIndex)
          else Some (Result rows NoIndex)
      | [] => Some (Result rows NoIndex)
      end
  | None => None
  end.

(** ** A small database to run the code on *)

(** [==] on two strings; other operands do not occur below. *)
Definition toy_loose_eq (a b : value) : bool :=
  match a, b with
  | VStr x, VStr y => String.eqb x y
  | _, _ => false
  end.

(** [_.isEqual] on flat maps of strings and [null]. *)
Definition toy_scalar_eq (a b : value) : bool :=
  match a, b with
  | VStr x, VStr y => String.eqb x y
  | VNum x, VNum y => (x =? y)%Z
  | VNull, VNull => true
  | VUndef, VUndef => true
  | _, _ => false
  end.

Fixpoint toy_props_eq (a b : obj) : bool :=
  match a, b with
  | [], [] => true
  | (k, v) :: a', (k', v') :: b' =>
      String.eqb k k' && toy_scalar_eq v v' && toy_props_eq a' b'
  | _, _ => false
  end.

Definition toy_isEqual (a b : value) : bool :=
  match a, b with
  | VObj x, VObj y => toy_props_eq x y
  | _, _ => toy_scalar_eq a b
  end.

(** [JSON.stringify] is not exercised by the runs below. *)
Definition toy_stringify (v : value) : value := VStr (to_string v).

Definition column (name type : string) : obj :=
  [("column_name", VStr name); ("data_type", VStr type)].

(** A database with one table [users(usersid, name, datastateid)] holding
    one row; it answers by the first word of the statement. *)
Definition toy_columns : list obj :=
  [column "usersid" "integer"; column "name" "character varying";
   column "datastateid" "bit"].

Definition toy_row : obj :=
  [("usersid", VNum 7); ("name", VStr "Alice"); ("datastateid", VStr "1")].

Definition toy_db (sql : string) (args : option (list value)) (st : unit)
    : unit * response :=
  if starts_with "SELECT * FROM information_schema" sql
  then (st, Success toy_columns)
  else (st, Success [toy_row]).

(** A database that fails every statement. *)
Definition down_db (sql : string) (args : option (list value)) (st : unit)
    : unit * response :=
  (st, Failure (Error "connection refused" ArgsNone)).

(** A database whose tables hold no row. *)
Definition empty_db (sql : string) (args : option (list value)) (st : unit)
    : unit * response :=
  (st, Success []).

(** A database that answers the schema lookup and fails everything else. *)
Definition half_db (sql : string) (args : option (list value)) (st : unit)
    : unit * response :=
  if starts_with "SELECT * FROM information_schema" sql
  then (st, Success toy_columns)
  else (st, Failure (Error "relation does not exist" ArgsNone)).

(** Status values 1, 2 and 3, sanitization off and on. *)
Definition numbered : config :=
  Config (Some "datastateid") (VNum 1) (VNum 2) (VNum 3) false.

Definition sanitizing : config :=
  Config (Some "datastateid") (VNum 1) (VNum 2) (VNum 3) true.

(** ** The class [DB] (lines 38-405) *)

Module DB.
Section Client.

(** The driver: [super.query], with the state of the database behind it. *)
Context {St : Type}.
Variable super_query : string -> option (list value) -> St -> St * response.

(** What the code takes from the JavaScript runtime and from lodash:
    [JSON.stringify], [_.isEqual] and the loose equality [==]. *)
Variable JSON_stringify : value -> value.
Variable isEqual : value -> value -> bool.
Variable loose_eq : value -> value -> bool.

Variable cfg : config.

(** The driver's state and the statements sent so far, oldest first. *)
Definition world : Type := St * list statement.

Definition promise (A : Type) : Type := world -> world * outcome A.

Definition send (sql : string) (args : option (list value)) (w : world)
    : world * response :=
  let '(st, sent) := w in
  let '(st', answer) := super_query sql args st in
  ((st', sent ++ [Statement sql args]), answer).

(** *** query (lines 87-118) *)

(** [query(sql, callback, null, index)], the branch of lines 88-96: the
    error is tagged with [args], which is the callback here, and
    [buildIndex] runs on [res] whether or not there was an error. *)
Definition query_cb (sql : string) (index : string) (w : world)
    : world * called :=
  let '(w', answer) := send sql None w in
  match answer with
  | Failure err =>
      let err := set_args err ArgsCallback in
      match buildIndex None index with
      | Some _ => (w', CallErr err)
      | None => (w', NotCalled)
      end
  | Success rows =>
      match buildIndex (Some rows) index with
      | Some res => (w', CallOk res)
      | None => (w', NotCalled)
      end
  end.

(** Lines 99-100. *)
Definition stamp (sql : string) : string :=
  if includes "UPDATE" sql
  then replace "SET " "SET modified = now(), " sql
  else sql.

(** [query(sql, args, callback, index)], the branch of lines 97-117. *)
Definition query (sql : string) (args : list value) (index : string)
    (w : world) : world * called :=
  let sql := stamp sql in
  let '(w', answer) := send sql (Some args) w in
  match answer with
  | Failure err => (w', CallErr (set_args err (ArgsValues args)))
  | Success rows =>
      match buildIndex (Some rows) index with
      | Some res => (w', CallOk res)
      | None => (w', NotCalled)
      end
  end.

(** *** The loops over a field map *)

Definition dollar (index : nat) : string := "$" +:+ nat_str index.

(** [field + ' = $' + index] for each field, [index] counting up. *)
Fixpoint assignments (index : nat) (fields : obj) : list string :=
  match fields with
  | [] => []
  | (field, _) :: rest =>
      (field +:+ " = " +:+ dollar index) :: assignments (S index) rest
  end.

(** ['$' + index] for each field, [index] counting up. *)
Fixpoint indexes_from (index : nat) (fields : obj) : list string :=
  match fields with
  | [] => []
  | _ :: rest => dollar index :: indexes_from (S index) rest
  end.

(** [!o[dbStatusField] && dbStatusField] *)
Definition status_unset (o : obj) : bool :=
  negb (truthy (get o (to_string (status_field_value cfg)))) && status_on cfg.

(** [dbStatusField + ' = ' + dbStatusValues.Active] *)
Definition active_predicate : string :=
  to_string (status_field_value cfg) +:+ " = "
  +:+ to_string (get (dbStatusValues cfg) "Active").

(** *** sanitizeFields (lines 321-380) *)

Definition schema_sql (table : string) : string :=
  "SELECT * FROM information_schema.columns WHERE table_schema = 'public' AND table_name = '"
  +:+ table +:+ "'".

(** [columns.find((col) => col.column_name == field)] *)
Definition find_column (columns : list obj) (field : string) : option obj :=
  List.find (fun col => loose_eq (get col "column_name") (VStr field)) columns.

(** The [switch] of lines 349-361. *)
Definition coerce (data_type : value) (v : value) : value :=
  match data_type with
  | VStr t =>
      if String.eqb t "bit" then
        if truthy v then VStr "1" else VStr "0"
      else if String.eqb t "character varying" then
        match v with VNull => VNull | _ => VStr (to_string v) end
      else if String.eqb t "json" || String.eqb t "jsonb" then
        match v with VStr _ => v | _ => JSON_stringify v end
      else v
  | _ => v
  end.

(** The loop of lines 345-367: the sanitized [fields] and [oldFields]. *)
Fixpoint sanitize_loop (columns : list obj) (compareId : value)
    (oldData : obj) (fields : obj) : obj * obj :=
  match fields with
  | [] => ([], [])
  | (field, v) :: rest =>
      let '(kept, oldFields) := sanitize_loop columns compareId oldData rest in
      match find_column columns field with
      | Some colData =>
          ((field, coerce (get colData "data_type") v) :: kept,
           if truthy compareId then (field, get oldData field) :: oldFields
           else oldFields)
      | None => (kept, oldFields)
      end
  end.

(** Lines 368-371. *)
Definition sanitize_answer (columns : list obj) (compareId : value)
    (oldData : obj) (fields : obj) : sanitized :=
  let '(kept, oldFields) := sanitize_loop columns compareId oldData fields in
  Sanitized kept
    (if truthy compareId && isEqual (VObj kept) (VObj oldFields)
     then Some oldFields else None).

(** [sanitizeFields(table, fields)], [compareId] left at [null]: the
    [waitFor] promise resolves at once. [select] calls this one, and
    [sanitizeFields] below calls [select]. *)
Definition sanitizeFields0 (table : string) (fields : obj)
    : promise sanitized := fun w =>
  if dbSanitizeFields cfg then
    match query_cb (schema_sql table) EmptyString w with
    | (w1, CallErr _) =>
        (w1, Rejected (Error "Failed To Gather Columns" ArgsNone))
    | (w1, CallOk result) =>
        (w1, Resolved (sanitize_answer (rows result) VNull [] fields))
    | (w1, NotCalled) => (w1, Unsettled)
    end
  else (w, Resolved (Sanitized fields None)).

(** *** select (lines 148-179) and selectOne (lines 187-196) *)

(** Lines 152-167; [fields] is [data.fields]. *)
Definition select_sql (table : string) (filter fields : obj)
    (orderBy : value) : string :=
  let matchFields :=
    assignments 1 fields
    ++ (if status_unset filter then [active_predicate] else []) in
  let sql := "SELECT * FROM " +:+ quoted table in
  let sql := if negb (length matchFields =? 0)
             then sql +:+ " WHERE " +:+ join " AND " matchFields else sql in
  if truthy orderBy then sql +:+ " ORDER BY " +:+ to_string orderBy else sql.

(** The [then] of line 151 has no rejection handler: when
    [sanitizeFields] rejects, the promise of [select] stays unsettled. *)
Definition select (table : string) (filter : obj) (orderBy : value)
    : promise (list obj) := fun w =>
  match sanitizeFields0 table filter w with
  | (w1, Resolved data) =>
      let fields := fields data in
      match query (select_sql table filter fields orderBy) (vals fields)
                  EmptyString w1 with
      | (w2, CallErr _) => (w2, Rejected (Error "Failed select()" ArgsNone))
      | (w2, CallOk result) => (w2, Resolved (rows result))
      | (w2, NotCalled) => (w2, Unsettled)
      end
  | (w1, _) => (w1, Unsettled)
  end.

Definition selectOne (table : string) (filter : obj) : promise obj := fun w =>
  match select table filter VNull w with
  | (w1, Resolved rows) =>
      (w1, Resolved (match rows with row :: _ => row | [] => [] end))
  | (w1, Rejected err) => (w1, Rejected err)
  | (w1, Unsettled) => (w1, Unsettled)
  end.

(** The promise [waitFor] of lines 331-342: it resolves once [oldData] is
    set. The [then] of line 335 has no rejection handler either. *)
Definition waitFor (table : string) (compareId : value) : promise obj :=
  fun w1 =>
  if truthy compareId then
    match selectOne table [(table +:+ "id", compareId)] w1 with
    | (w2, Resolved res) => (w2, Resolved res)
    | (w2, _) => (w2, Unsettled)
    end
  else (w1, Resolved []).

(** [sanitizeFields(table, fields, compareId)] *)
Definition sanitizeFields (table : string) (fields : obj) (compareId : value)
    : promise sanitized := fun w =>
  if dbSanitizeFields cfg then
    match query_cb (schema_sql table) EmptyString w with
    | (w1, CallErr _) =>
        (w1, Rejected (Error "Failed To Gather Columns" ArgsNone))
    | (w1, CallOk result) =>
        match waitFor table compareId w1 with
        | (w2, Resolved oldData) =>
            (w2, Resolved (sanitize_answer (rows result) compareId oldData
                                           fields))
        | (w2, _) => (w2, Unsettled)
        end
    | (w1, NotCalled) => (w1, Unsettled)
    end
  else (w, Resolved (Sanitized fields None)).

(** *** update (lines 205-256) *)

(** Lines 210-224: [setFields] and [values]. *)
Definition update_set (fields : obj) : list string * list value :=
  let setFields := assignments 1 fields in
  let values := vals fields in
  if status_unset fields
  then (setFields
          ++ [to_string (status_field_value cfg) +:+ " = "
              +:+ dollar (length setFields + 1)],
        values ++ [get (dbStatusValues cfg) "Active"])
  else (setFields, values).

(** The loop of lines 229-232: what is appended to [sql], [count] being
    [values.length] on entry. *)
Fixpoint key_clause (count : nat) (entries : obj) : string :=
  match entries with
  | [] => EmptyString
  | (key, _) :: rest =>
      key +:+ " = " +:+ dollar (S count) +:+ key_clause (S count) rest
  end.

(** Lines 227-237: the statement and its argument list. *)
Definition update_statement (table : string) (id : value) (fields : obj)
    : string * list value :=
  let '(setFields, values) := update_set fields in
  let sql := "UPDATE " +:+ quoted table +:+ " SET "
             +:+ join ", " setFields +:+ " WHERE " in
  let '(sql, values) :=
    if typeof_object id
    then (sql +:+ key_clause (length values) (for_in id),
          values ++ vals (for_in id))
    else (sql +:+ table +:+ "id = " +:+ dollar (length values + 1),
          values ++ [id]) in
  (sql +:+ " RETURNING *", values).

Definition update (table : string) (id : value) (data : obj) (status : bool)
    : promise update_answer := fun w =>
  let compareId := if status then id else VNull in
  match sanitizeFields table data compareId w with
  | (w1, Resolved data) =>
      match matches data with
      | None =>
          let '(sql, values) := update_statement table id (fields data) in
          match query sql values EmptyString w1 with
          | (w2, CallErr err) => (w2, Rejected err)
          | (w2, CallOk result) =>
              (w2, Resolved (if status
                             then WithStatus (Rows (rows result)) true
                             else Bare (Rows (rows result))))
          | (w2, NotCalled) => (w2, Unsettled)
          end
      | Some old =>
          (w1, Resolved (if status then WithStatus (Kept old) false
                         else Bare (Kept old)))
      end
  | (w1, Rejected err) => (w1, Rejected err)
  | (w1, Unsettled) => (w1, Unsettled)
  end.

(** *** insert (lines 266-312) *)

(** [Array.isArray(conflict) && conflict.length] *)
Definition filled_array (v : value) : bool :=
  match v with
  | VArr (_ :: _) => true
  | _ => false
  end.

(** Lines 291-295. *)
Definition doUpdates (setFields : list string) (conflictUpdate : list string)
    : list string :=
  List.map (fun conflictField => conflictField +:+ " = EXCLUDED." +:+ conflictField)
           conflictUpdate
  ++ (if status_on cfg
         && negb (existsb (String.eqb (to_string (status_field_value cfg)))
                          setFields)
      then [active_predicate] else []).

(** Lines 284-298. *)
Definition insert_sql (table : string) (fields : obj) (conflict : value)
    (conflictUpdate : list string) : string :=
  let setFields := keys fields in
  let indexes := indexes_from 1 fields in
  let sql := "INSERT INTO " +:+ quoted table +:+ " (" +:+ join "," setFields
             +:+ ") VALUES (" +:+ join "," indexes +:+ ") " in
  let sql :=
    if truthy conflict then
      (if filled_array conflict
       then sql +:+ " ON CONFLICT (" +:+ to_string conflict +:+ ") DO UPDATE SET "
       else sql +:+ " ON CONFLICT " +:+ to_string conflict +:+ " DO UPDATE SET ")
      +:+ join ", " (doUpdates setFields conflictUpdate) +:+ " "
    else sql in
  sql +:+ "RETURNING " +:+ table +:+ "id".

(** [result.rows[0]] of an empty [rows] is [undefined], and reading a
    property of it throws before [resolve] runs. *)
Definition insert (table : string) (data : obj) (conflict : value)
    (conflictUpdate : list string) : promise value := fun w =>
  match sanitizeFields table data VNull w with
  | (w1, Resolved data) =>
      let fields := fields data in
      match query (insert_sql table fields conflict conflictUpdate)
                  (vals fields) EmptyString w1 with
      | (w2, CallErr err) => (w2, Rejected err)
      | (w2, CallOk result) =>
          match rows result with
          | row :: _ => (w2, Resolved (get row (table +:+ "id")))
          | [] => (w2, Unsettled)
          end
      | (w2, NotCalled) => (w2, Unsettled)
      end
  | (w1, Rejected err) => (w1, Rejected err)
  | (w1, Unsettled) => (w1, Unsettled)
  end.

(** *** delete (lines 389-404) *)

Definition delete_sql (table : string) (id : value) (idField : string)
    : string :=
  let idField := if String.eqb idField EmptyString then table +:+ "id"
                 else idField in
  let sql := "UPDATE " +:+ quoted table +:+ " SET "
             +:+ to_string (status_field_value cfg) +:+ " = "
             +:+ to_string (get (dbStatusValues cfg) "Deleted")
             +:+ " WHERE " +:+ idField +:+ " = " +:+ to_string id in
  if negb (status_on cfg)
  then "DELETE FROM " +:+ quoted table +:+ " WHERE " +:+ idField +:+ " = "
       +:+ to_string id
  else sql.

Definition delete (table : string) (id : value) (idField : string)
    : promise bool := fun w =>
  match query_cb (delete_sql table id idField) EmptyString w with
  | (w1, CallErr _) => (w1, Rejected (Error "Failed To Delete Row" ArgsNone))
  | (w1, CallOk _) => (w1, Resolved true)
  | (w1, NotCalled) => (w1, Unsettled)
  end.

(** *** begin, abort and commit (lines 55-78) *)

Definition begin (transaction : bool) (w : world) : world * verb_called :=
  if transaction
  then let '(w', c) := query_cb "BEGIN" EmptyString w in (w', Through c)
  else (w, Bare_call).

Definition abort (transaction : bool) (w : world) : world * verb_called :=
  if transaction
  then let '(w', c) := query_cb "ABORT" EmptyString w in (w', Through c)
  else (w, Bare_call).

Definition commit (transaction : bool) (w : world) : world * verb_called :=
  if transaction
  then let '(w', c) := query_cb "COMMIT" EmptyString w in (w', Through c)
  else (w, Bare_call).

(** ** Vocabulary of the statements proved below *)

(** The WHERE clause of [select] for the predicates [matchFields]. *)
Definition where_clause (matchFields : list string) : string :=
  match matchFields with
  | [] => EmptyString
  | _ => " WHERE " +:+ join " AND " matchFields
  end.

(** The ORDER BY clause of [select]. *)
Definition order_clause (orderBy : value) : string :=
  if truthy orderBy then " ORDER BY " +:+ to_string orderBy else EmptyString.

(** What the callback of [query(sql, args, callback)] receives. *)
Definition answered (args : list value) (answer : response) : called :=
  match answer with
  | Failure err => CallErr (set_args err (ArgsValues args))
  | Success rows => CallOk (Result rows NoIndex)
  end.

(** What the callback of [query(sql, callback)] receives: on failure
    [buildIndex] throws on the missing result and the callback never runs. *)
Definition answered_cb (answer : response) : called :=
  match answer with
  | Failure _ => NotCalled
  | Success rows => CallOk (Result rows NoIndex)
  end.

(** Whether [columns.find] finds a column for [field]. *)
Definition has_column (columns : list obj) (field : string) : bool :=
  existsb (fun col => loose_eq (get col "column_name") (VStr field)) columns.

(** A statement that begins with [UPDATE], and those among the ones sent. *)
Definition is_update (s : statement) : bool := starts_with "UPDATE" (text s).

Definition updates (sent : list statement) : list statement :=
  List.filter is_update sent.

(** The text up to the conflict clause. *)
Definition insert_head (table : string) (flds : obj) : string :=
  "INSERT INTO " +:+ quoted table +:+ " (" +:+ join "," (keys flds)
  +:+ ") VALUES (" +:+ join "," (indexes_from 1 flds) +:+ ") ".

(** The status assignment of the DO UPDATE SET clause. *)
Definition status_update (flds : obj) : list string :=
  match dbStatusField cfg with
  | Some f =>
      if negb (String.eqb f EmptyString)
         && negb (existsb (String.eqb f) (keys flds))
      then [f +:+ " = " +:+ to_string (statusActive cfg)]
      else []
  | None => []
  end.

(** A [data_type] that the [switch] of lines 349-361 has no case for. *)
Definition plain_type (data_type : value) : bool :=
  match data_type with
  | VStr t =>
      negb (String.eqb t "bit" || String.eqb t "character varying"
            || String.eqb t "json" || String.eqb t "jsonb")
  | _ => true
  end.

(** Whether some row's key is an inherited name. *)
Definition some_key_inherited (index : string) (rows : list obj) : bool :=
  existsb (fun row => inherited (key_of index row)) rows.

(** The rows filed under the key [k], in their order. *)
Definition rows_with_key (index k : string) (rows : list obj) : list obj :=
  List.filter (fun row => String.eqb (key_of index row) k) rows.

(** ** Facts about text *)

Lemma append_assoc (a b c : string) : (a +:+ b) +:+ c = a +:+ (b +:+ c).
Proof. induction a as [|x a IH]; simpl; [reflexivity | now rewrite IH]. Qed.

Lemma append_empty_r (a : string) : a +:+ EmptyString = a.
Proof. induction a as [|x a IH]; simpl; [reflexivity | now rewrite IH]. Qed.

Lemma length_append (a b : string) :
  String.length (a +:+ b) = String.length a + String.length b.
Proof. induction a as [|x a IH]; simpl; [reflexivity | now rewrite IH]. Qed.

Lemma starts_with_append (pat s : string) : starts_with pat (pat +:+ s) = true.
Proof.
  induction pat as [|a pat IH]; simpl; [reflexivity |].
  now rewrite Ascii.eqb_refl, IH.
Qed.

Lemma drop_chars_append (pat s : string) :
  drop_chars (String.length pat) (pat +:+ s) = s.
Proof. induction pat as [|a pat IH]; simpl; [reflexivity | exact IH]. Qed.

Lemma includes_here (pat s : string) :
  starts_with pat s = true -> includes pat s = true.
Proof. destruct s; simpl; intros ->; reflexivity. Qed.

Lemma includes_append (pat pre post : string) :
  includes pat (pre +:+ pat +:+ post) = true.
Proof.
  induction pre as [|c pre IH]; simpl.
  - apply includes_here, starts_with_append.
  - rewrite IH. apply orb_true_r.
Qed.

(** A pattern that fits inside [x] is matched or not by [x] alone. *)
Lemma starts_with_fits (pat x y : string) :
  String.length pat <= String.length x ->
  starts_with pat (x +:+ y) = starts_with pat x.
Proof.
  revert x. induction pat as [|a pat IH]; intros [|b x] Hlen; simpl in *;
    try reflexivity; try lia.
  rewrite IH by lia. reflexivity.
Qed.

(** A character foreign to the pattern stops every match that reaches it. *)
Lemma starts_with_stop (pat x r : string) (c : ascii) :
  pat <> EmptyString -> occurs_in c pat = false ->
  starts_with pat (x +:+ String c r) = starts_with pat x.
Proof.
  revert x. induction pat as [|a pat IH]; intros x Hne Hc; [congruence |].
  simpl in Hc. apply orb_false_elim in Hc as [Hac Hc].
  destruct x as [|b x]; simpl.
  - now rewrite Hac.
  - destruct pat as [|a' pat].
    + simpl. reflexivity.
    + rewrite IH; [reflexivity | congruence | exact Hc].
Qed.

Lemma includes_stop (pat x r : string) (c : ascii) :
  pat <> EmptyString -> occurs_in c pat = false ->
  includes pat (x +:+ String c r) = includes pat x || includes pat (String c r).
Proof.
  intros Hne Hc. induction x as [|b x IH].
  - simpl. destruct pat; [congruence | reflexivity].
  - change (includes pat (String b x +:+ String c r))
      with (starts_with pat (String b (x +:+ String c r))
            || includes pat (x +:+ String c r)).
    change (includes pat (String b x))
      with (starts_with pat (String b x) || includes pat x).
    rewrite IH.
    change (String b (x +:+ String c r)) with (String b x +:+ String c r).
    rewrite starts_with_stop by assumption.
    now rewrite orb_assoc.
Qed.

Lemma replace_here (pat rep s : string) :
  starts_with pat s = true ->
  replace pat rep s = rep +:+ drop_chars (String.length pat) s.
Proof. destruct s; simpl; intros ->; reflexivity. Qed.

Lemma replace_later (pat rep s : string) (c : ascii) :
  starts_with pat (String c s) = false ->
  replace pat rep (String c s) = String c (replace pat rep s).
Proof. intros H. change (replace pat rep (String c s))
  with (if starts_with pat (String c s)
        then rep +:+ drop_chars (String.length pat) (String c s)
        else String c (replace pat rep s)). now rewrite H. Qed.

(** [replace] rewrites the first occurrence: the pattern's last character
    apart, no occurrence starts in [pre]. *)
Lemma replace_first (pat rep pre post : string) (last : ascii) :
  includes (pat +:+ String last EmptyString) (pre +:+ pat) = false ->
  replace (pat +:+ String last EmptyString) rep
          (pre +:+ (pat +:+ String last EmptyString) +:+ post)
  = pre +:+ rep +:+ post.
Proof.
  set (full := pat +:+ String last EmptyString).
  induction pre as [|c pre IH]; intros Hno.
  - simpl. rewrite replace_here by apply starts_with_append.
    now rewrite drop_chars_append.
  - change (includes full (String c pre +:+ pat))
      with (starts_with full (String c pre +:+ pat)
            || includes full (pre +:+ pat)) in Hno.
    apply orb_false_elim in Hno as [Hhere Hlater].
    assert (Hsplit : String c (pre +:+ full +:+ post)
                     = (String c pre +:+ pat) +:+ String last post).
    { unfold full. simpl. rewrite !append_assoc. reflexivity. }
    change (String c pre +:+ full +:+ post)
      with (String c (pre +:+ full +:+ post)).
    rewrite replace_later.
    + rewrite IH by exact Hlater. reflexivity.
    + rewrite Hsplit, starts_with_fits; [exact Hhere |].
      unfold full. simpl. rewrite !length_append. simpl. lia.
Qed.

Lemma replace_set (rep pre post : string) :
  includes "SET " (pre +:+ "SET") = false ->
  replace "SET " rep (pre +:+ "SET " +:+ post) = pre +:+ rep +:+ post.
Proof. exact (replace_first "SET" rep pre post " "). Qed.

(** Both sides of an equation between texts, brought to the same shape. *)
Ltac text_norm :=
  unfold quoted, dq; repeat rewrite append_assoc; simpl;
  repeat rewrite append_empty_r.

(** ** What [query] does to a statement (lines 99-100) *)

Lemma stamp_other (sql : string) :
  includes "UPDATE" sql = false -> stamp sql = sql.
Proof. unfold stamp. now intros ->. Qed.

(** The first [SET ] of a statement that mentions [UPDATE] gets the
    timestamp. *)
Lemma stamp_after (pre post : string) :
  includes "UPDATE" (pre +:+ "SET " +:+ post) = true ->
  includes "SET " (pre +:+ "SET") = false ->
  stamp (pre +:+ "SET " +:+ post) = pre +:+ "SET modified = now(), " +:+ post.
Proof. unfold stamp. intros -> Hno. now apply replace_set. Qed.

Lemma no_set_before_update_set (table : string) :
  includes "SET " table = false ->
  includes "SET " (("UPDATE " +:+ quoted table +:+ " ") +:+ "SET") = false.
Proof.
  intros Hno. text_norm.
  rewrite (includes_stop "SET " table _ "034") by (reflexivity || discriminate).
  rewrite Hno. reflexivity.
Qed.

Lemma stamp_update (table rest : string) :
  includes "SET " table = false ->
  stamp ("UPDATE " +:+ quoted table +:+ " SET " +:+ rest)
  = "UPDATE " +:+ quoted table +:+ " SET modified = now(), " +:+ rest.
Proof.
  intros Hno.
  assert (E : "UPDATE " +:+ quoted table +:+ " SET " +:+ rest
              = ("UPDATE " +:+ quoted table +:+ " ") +:+ "SET " +:+ rest)
    by (text_norm; reflexivity).
  rewrite E, stamp_after.
  - text_norm. reflexivity.
  - rewrite <- E. reflexivity.
  - now apply no_set_before_update_set.
Qed.

Lemma stamp_keeps_select (rest : string) :
  starts_with "SELECT" (stamp ("SELECT * FROM " +:+ rest)) = true.
Proof.
  unfold stamp. destruct (includes _ _); [| reflexivity].
  simpl. reflexivity.
Qed.

Lemma stamp_keeps_update (rest : string) :
  starts_with "UPDATE" (stamp ("UPDATE " +:+ rest)) = true.
Proof.
  unfold stamp. destruct (includes _ _); [| reflexivity].
  simpl. reflexivity.
Qed.

(** ** The clauses a statement is made of *)

Lemma length_assignments (index : nat) (fields : obj) :
  length (assignments index fields) = length fields.
Proof.
  revert index. induction fields as [|[field v] rest IH]; intros index; simpl;
    [reflexivity | now rewrite IH].
Qed.

Lemma length_vals (fields : obj) : length (vals fields) = length fields.
Proof. apply length_map. Qed.

Lemma get_absent (o : obj) (k : string) : own k o = None -> get o k = VUndef.
Proof. unfold get. now intros ->. Qed.

Lemma status_on_some (f : string) :
  dbStatusField cfg = Some f -> f <> EmptyString -> status_on cfg = true.
Proof.
  intros Hf Hne. unfold status_on, status_field_value. rewrite Hf. simpl.
  apply negb_true_iff, String.eqb_neq. exact Hne.
Qed.

Lemma status_on_none : dbStatusField cfg = None -> status_on cfg = false.
Proof. intros Hf. unfold status_on, status_field_value. now rewrite Hf. Qed.

Lemma status_unset_some (f : string) (o : obj) :
  dbStatusField cfg = Some f -> f <> EmptyString ->
  status_unset o = negb (truthy (get o f)).
Proof.
  intros Hf Hne. unfold status_unset.
  rewrite (status_on_some f Hf Hne), andb_true_r.
  unfold status_field_value. now rewrite Hf.
Qed.

Lemma status_unset_none (o : obj) :
  dbStatusField cfg = None -> status_unset o = false.
Proof.
  intros Hf. unfold status_unset. rewrite (status_on_none Hf).
  apply andb_false_r.
Qed.

Lemma active_predicate_some (f : string) :
  dbStatusField cfg = Some f ->
  active_predicate = f +:+ " = " +:+ to_string (statusActive cfg).
Proof.
  intros Hf. unfold active_predicate, status_field_value. now rewrite Hf.
Qed.

(** ** Running [query] *)

Lemma buildIndex_no_index (rows : list obj) :
  buildIndex (Some rows) EmptyString = Some (Result rows NoIndex).
Proof. destruct rows; reflexivity. Qed.

Lemma query_run (sql : string) (args : list value) (st st' : St)
    (sent : list statement) (answer : response) :
  super_query (stamp sql) (Some args) st = (st', answer) ->
  query sql args EmptyString (st, sent)
  = ((st', sent ++ [Statement (stamp sql) (Some args)]), answered args answer).
Proof.
  intros H. unfold query, send. rewrite H.
  destruct answer as [err|[|row rows]]; reflexivity.
Qed.

Lemma query_cb_run (sql : string) (st st' : St) (sent : list statement)
    (answer : response) :
  super_query sql None st = (st', answer) ->
  query_cb sql EmptyString (st, sent)
  = ((st', sent ++ [Statement sql None]), answered_cb answer).
Proof.
  intros H. unfold query_cb, send. rewrite H.
  destruct answer as [err|[|row rows]]; reflexivity.
Qed.

Lemma query_sent (sql : string) (args : list value) (index : string)
    (w : world) :
  snd (fst (query sql args index w))
  = snd w ++ [Statement (stamp sql) (Some args)].
Proof.
  destruct w as [st sent]. unfold query, send.
  destruct (super_query _ _ st) as [st' [err|rows]]; [reflexivity |].
  destruct (buildIndex (Some rows) index); reflexivity.
Qed.

Lemma query_cb_sent (sql index : string) (w : world) :
  snd (fst (query_cb sql index w)) = snd w ++ [Statement sql None].
Proof.
  destruct w as [st sent]. unfold query_cb, send.
  destruct (super_query _ _ st) as [st' [err|rows]].
  - destruct (buildIndex None index); reflexivity.
  - destruct (buildIndex (Some rows) index); reflexivity.
Qed.

(** ** select *)

Lemma select_sent (table : string) (filter : obj) (orderBy : value)
    (w w1 : world) (d : sanitized) :
  sanitizeFields0 table filter w = (w1, Resolved d) ->
  snd (fst (select table filter orderBy w))
  = snd w1 ++ [Statement
                 (stamp (select_sql table filter (fields d) orderBy))
                 (Some (vals (fields d)))].
Proof.
  intros Hsan. unfold select. rewrite Hsan.
  pose proof (query_sent (select_sql table filter (fields d) orderBy)
                         (vals (fields d)) EmptyString w1) as Hsent.
  destruct (query _ _ _ w1) as [w2 [err|res|]]; exact Hsent.
Qed.

(** C2. When the filter has no status key and a status column is
    configured, the text [select] builds ends its WHERE clause with the
    predicate [<status column> = <Active value>]; when the status column is
    [null], the WHERE clause holds the filter's own predicates and nothing
    more, whatever the filter. That text, built from the fields
    [sanitizeFields] resolves to, is what [select] hands to [query]. *)
Theorem select_status_predicate (table : string) (filter flds : obj)
    (orderBy : value) :
  (forall f, dbStatusField cfg = Some f -> f <> EmptyString ->
     own f filter = None ->
     select_sql table filter flds orderBy
     = "SELECT * FROM " +:+ quoted table +:+ " WHERE "
       +:+ join " AND " (assignments 1 flds
                         ++ [f +:+ " = " +:+ to_string (statusActive cfg)])
       +:+ order_clause orderBy)
  /\ (dbStatusField cfg = None ->
      select_sql table filter flds orderBy
      = "SELECT * FROM " +:+ quoted table
        +:+ where_clause (assignments 1 flds) +:+ order_clause orderBy)
  /\ (forall (w w1 : world) (matched : option obj),
        sanitizeFields0 table filter w
        = (w1, Resolved (Sanitized flds matched)) ->
        snd (fst (select table filter orderBy w))
        = snd w1 ++ [Statement (stamp (select_sql table filter flds orderBy))
                               (Some (vals flds))]).
Proof.
  split; [| split].
  - intros f Hf Hne Habsent. unfold select_sql, order_clause.
    rewrite (status_unset_some f filter Hf Hne), (get_absent _ _ Habsent).
    rewrite (active_predicate_some f Hf). simpl negb. cbv iota.
    rewrite length_app. simpl length.
    replace (length (assignments 1 flds) + 1 =? 0) with false
      by (symmetry; apply Nat.eqb_neq; lia).
    simpl negb. cbv iota.
    destruct (truthy orderBy); text_norm; reflexivity.
  - intros Hf. unfold select_sql, order_clause, where_clause.
    rewrite (status_unset_none filter Hf), app_nil_r.
    destruct (assignments 1 flds) as [|m ms]; simpl length; simpl negb;
      cbv iota; destruct (truthy orderBy); text_norm; reflexivity.
  - intros w w1 matched Hsan.
    exact (select_sent table filter orderBy w w1 _ Hsan).
Qed.

(** ** sanitizeFields *)

Lemma find_column_none (columns : list obj) (field : string) :
  find_column columns field = None <-> has_column columns field = false.
Proof.
  unfold find_column, has_column.
  induction columns as [|col columns IH]; simpl; [tauto |].
  destruct (loose_eq _ _); simpl; [split; discriminate | exact IH].
Qed.

Lemma sanitize_loop_keys (columns : list obj) (compareId : value)
    (oldData flds : obj) :
  keys (fst (sanitize_loop columns compareId oldData flds))
  = List.filter (has_column columns) (keys flds).
Proof.
  induction flds as [|[field v] rest IH]; simpl; [reflexivity |].
  destruct (sanitize_loop columns compareId oldData rest) as [kept olds].
  simpl in IH.
  destruct (find_column columns field) as [col|] eqn:E.
  - destruct (has_column columns field) eqn:Hc.
    + simpl. now rewrite IH.
    + apply find_column_none in Hc. congruence.
  - apply find_column_none in E. rewrite E. exact IH.
Qed.

Lemma sanitize_loop_coerces (columns : list obj) (compareId : value)
    (oldData flds : obj) (field : string) (v : value) (col : obj) :
  In (field, v) flds -> find_column columns field = Some col ->
  In (field, coerce (get col "data_type") v)
     (fst (sanitize_loop columns compareId oldData flds)).
Proof.
  intros Hin Hcol. induction flds as [|[field' v'] rest IH]; simpl in *;
    [contradiction |].
  destruct (sanitize_loop columns compareId oldData rest) as [kept olds].
  simpl in IH. destruct Hin as [Heq | Hin].
  - inversion Heq; subst. rewrite Hcol. simpl. now left.
  - destruct (find_column columns field'); simpl; [right |]; now apply IH.
Qed.


Lemma fields_sanitize_answer (columns : list obj) (compareId : value)
    (oldData flds : obj) :
  fields (sanitize_answer columns compareId oldData flds)
  = fst (sanitize_loop columns compareId oldData flds).
Proof.
  unfold sanitize_answer. now destruct (sanitize_loop _ _ _ _).
Qed.

Lemma matches_sanitize_answer (columns : list obj) (compareId : value)
    (oldData flds : obj) :
  matches (sanitize_answer columns compareId oldData flds)
  = if truthy compareId
       && isEqual (VObj (fst (sanitize_loop columns compareId oldData flds)))
                  (VObj (snd (sanitize_loop columns compareId oldData flds)))
    then Some (snd (sanitize_loop columns compareId oldData flds))
    else None.
Proof.
  unfold sanitize_answer. now destruct (sanitize_loop _ _ _ _).
Qed.

Lemma sanitizeFields_off (table : string) (flds : obj) (compareId : value)
    (w : world) :
  dbSanitizeFields cfg = false ->
  sanitizeFields table flds compareId w = (w, Resolved (Sanitized flds None)).
Proof. unfold sanitizeFields. now intros ->. Qed.

Lemma sanitizeFields_on (table : string) (flds : obj) (compareId : value)
    (st st1 : St) (sent : list statement) (columns : list obj) (w2 : world)
    (oldData : obj) :
  dbSanitizeFields cfg = true ->
  super_query (schema_sql table) None st = (st1, Success columns) ->
  waitFor table compareId (st1, sent ++ [Statement (schema_sql table) None])
  = (w2, Resolved oldData) ->
  sanitizeFields table flds compareId (st, sent)
  = (w2, Resolved (sanitize_answer columns compareId oldData flds)).
Proof.
  intros Hon Hschema Hwait. unfold sanitizeFields. rewrite Hon.
  rewrite (query_cb_run _ _ _ _ _ Hschema). simpl. now rewrite Hwait.
Qed.

(** With no [compareId], [sanitizeFields] is the function [select] calls. *)
Lemma sanitizeFields_null (table : string) (flds : obj) (w : world) :
  sanitizeFields table flds VNull w = sanitizeFields0 table flds w.
Proof.
  unfold sanitizeFields, sanitizeFields0, waitFor. simpl.
  destruct (dbSanitizeFields cfg); [| reflexivity].
  destruct (query_cb _ _ w) as [w1 [err|res|]]; reflexivity.
Qed.

(** What the [switch] of lines 349-361 makes of a value, type by type. *)
Lemma coerce_by_type (data_type v : value) :
  (data_type = VStr "bit" ->
   coerce data_type v = VStr (if truthy v then "1" else "0"))
  /\ (data_type = VStr "character varying" ->
      coerce data_type v
      = match v with VNull => VNull | _ => VStr (to_string v) end)
  /\ (data_type = VStr "json" \/ data_type = VStr "jsonb" ->
      coerce data_type v
      = match v with VStr _ => v | _ => JSON_stringify v end)
  /\ (plain_type data_type = true -> coerce data_type v = v).
Proof.
  repeat split.
  - intros ->. simpl. now destruct (truthy v).
  - intros ->. reflexivity.
  - intros [-> | ->]; reflexivity.
  - unfold coerce, plain_type.
    destruct data_type as [| |b|n|t|items|props]; try reflexivity.
    intros Hplain. apply negb_true_iff in Hplain.
    apply orb_false_elim in Hplain as [Hplain Hjsonb].
    apply orb_false_elim in Hplain as [Hplain Hjson].
    apply orb_false_elim in Hplain as [Hbit Hchar].
    now rewrite Hbit, Hchar, Hjson, Hjsonb.
Qed.

(** C8. With sanitization disabled [sanitizeFields] resolves to the fields
    as given and a [null] no-changes signal without sending any statement,
    for every table and [compareId]. With sanitization enabled, once the
    schema lookup has answered with [columns] and [waitFor] has resolved,
    the fields it resolves to keep exactly the keys, in order, that
    [columns] names, and each kept field holds the given value coerced by
    the column's [data_type]: in a [bit] column the text ['1'] for a truthy
    value and ['0'] otherwise; in a [character varying] column [null] for
    [null] and the value's text otherwise; in a [json] or [jsonb] column a
    text as it is and [JSON.stringify] of anything else; in a column of
    any other type the value as given. *)
Theorem sanitizeFields_drops_unknown (table : string) (flds : obj)
    (compareId : value) (st : St) (sent : list statement) :
  (dbSanitizeFields cfg = false ->
   sanitizeFields table flds compareId (st, sent)
   = ((st, sent), Resolved (Sanitized flds None)))
  /\ (dbSanitizeFields cfg = true ->
      forall (st1 : St) (columns : list obj) (w2 : world) (oldData : obj),
        super_query (schema_sql table) None st = (st1, Success columns) ->
        waitFor table compareId
                (st1, sent ++ [Statement (schema_sql table) None])
        = (w2, Resolved oldData) ->
        exists data,
          sanitizeFields table flds compareId (st, sent) = (w2, Resolved data)
          /\ keys (fields data) = List.filter (has_column columns) (keys flds)
          /\ (forall field v col,
                In (field, v) flds ->
                find_column columns field = Some col ->
                exists kept,
                  In (field, kept) (fields data)
                  /\ (get col "data_type" = VStr "bit" ->
                      kept = VStr (if truthy v then "1" else "0"))
                  /\ (get col "data_type" = VStr "character varying" ->
                      kept = match v with
                             | VNull => VNull
                             | _ => VStr (to_string v)
                             end)
                  /\ (get col "data_type" = VStr "json"
                      \/ get col "data_type" = VStr "jsonb" ->
                      kept = match v with
                             | VStr _ => v
                             | _ => JSON_stringify v
                             end)
                  /\ (plain_type (get col "data_type") = true -> kept = v))).
Proof.
  split.
  - apply sanitizeFields_off.
  - intros Hon st1 columns w2 oldData Hschema Hwait.
    exists (sanitize_answer columns compareId oldData flds).
    split; [now apply sanitizeFields_on with (st1 := st1) |].
    rewrite fields_sanitize_answer. split.
    + apply sanitize_loop_keys.
    + intros field v col Hin Hcol.
      exists (coerce (get col "data_type") v).
      split; [now apply sanitize_loop_coerces |].
      apply coerce_by_type.
Qed.

(** ** Which of the statements sent are UPDATE statements *)

Lemma updates_snoc_other (sent : list statement) (s : statement) :
  is_update s = false -> updates (sent ++ [s]) = updates sent.
Proof.
  intros H. unfold updates. rewrite List.filter_app. simpl. rewrite H.
  apply app_nil_r.
Qed.


Lemma schema_not_update (table : string) :
  is_update (Statement (schema_sql table) None) = false.
Proof. reflexivity. Qed.

Lemma select_sql_head (table : string) (filter flds : obj) (orderBy : value) :
  exists rest,
    select_sql table filter flds orderBy = "SELECT * FROM " +:+ rest.
Proof.
  unfold select_sql.
  destruct (negb _); destruct (truthy orderBy); eexists; text_norm;
    reflexivity.
Qed.

Lemma select_text_not_update (s : string) :
  starts_with "SELECT" s = true -> starts_with "UPDATE" s = false.
Proof.
  destruct s as [|c s]; [discriminate |].
  change (starts_with "SELECT" (String c s))
    with (Ascii.eqb "S" c && starts_with "ELECT" s).
  change (starts_with "UPDATE" (String c s))
    with (Ascii.eqb "U" c && starts_with "PDATE" s).
  intros H. apply andb_true_iff in H as [Hc _].
  apply Ascii.eqb_eq in Hc. subst c. reflexivity.
Qed.

Lemma select_not_update (table : string) (filter flds : obj)
    (orderBy : value) (args : option (list value)) :
  is_update (Statement (stamp (select_sql table filter flds orderBy)) args)
  = false.
Proof.
  destruct (select_sql_head table filter flds orderBy) as [rest ->].
  unfold is_update. simpl text.
  apply select_text_not_update, stamp_keeps_select.
Qed.

Lemma sanitizeFields0_updates (table : string) (flds : obj) (w : world) :
  updates (snd (fst (sanitizeFields0 table flds w))) = updates (snd w).
Proof.
  unfold sanitizeFields0. destruct (dbSanitizeFields cfg); [| reflexivity].
  pose proof (query_cb_sent (schema_sql table) EmptyString w) as Hsent.
  destruct (query_cb _ _ w) as [w1 [err|res|]]; simpl in *; rewrite Hsent;
    apply updates_snoc_other, schema_not_update.
Qed.

Lemma select_updates (table : string) (filter : obj) (orderBy : value)
    (w : world) :
  updates (snd (fst (select table filter orderBy w))) = updates (snd w).
Proof.
  unfold select.
  pose proof (sanitizeFields0_updates table filter w) as H0.
  destruct (sanitizeFields0 table filter w) as [w1 [data|err|]]; simpl in H0;
    try exact H0.
  pose proof (query_sent (select_sql table filter (fields data) orderBy)
                         (vals (fields data)) EmptyString w1) as Hsent.
  destruct (query _ _ _ w1) as [w2 [err|res|]]; simpl in *; rewrite Hsent;
    rewrite updates_snoc_other by apply select_not_update; exact H0.
Qed.

Lemma selectOne_updates (table : string) (filter : obj) (w : world) :
  updates (snd (fst (selectOne table filter w))) = updates (snd w).
Proof.
  unfold selectOne. pose proof (select_updates table filter VNull w) as H.
  destruct (select table filter VNull w) as [w1 [rows|err|]]; exact H.
Qed.


(** ** update *)

Lemma update_statement_head (table : string) (id : value) (flds : obj) :
  exists rest,
    fst (update_statement table id flds)
    = "UPDATE " +:+ quoted table +:+ " SET " +:+ rest.
Proof.
  unfold update_statement. destruct (update_set flds) as [setFields values].
  destruct (typeof_object id); eexists; simpl fst; text_norm; reflexivity.
Qed.

Lemma update_is_update (table : string) (id : value) (flds : obj)
    (args : option (list value)) :
  is_update (Statement (stamp (fst (update_statement table id flds))) args)
  = true.
Proof.
  destruct (update_statement_head table id flds) as [rest ->].
  unfold is_update. simpl text. apply stamp_keeps_update.
Qed.

(** What [update] does once [sanitizeFields] has resolved. *)
Lemma update_run (table : string) (id : value) (data : obj) (status : bool)
    (w : world) (st1 st2 : St) (sent1 : list statement) (d : sanitized)
    (answer : response) :
  sanitizeFields table data (if status then id else VNull) w
  = ((st1, sent1), Resolved d) ->
  matches d = None ->
  super_query (stamp (fst (update_statement table id (fields d))))
              (Some (snd (update_statement table id (fields d)))) st1
  = (st2, answer) ->
  update table id data status w
  = ((st2, sent1 ++ [Statement
                       (stamp (fst (update_statement table id (fields d))))
                       (Some (snd (update_statement table id (fields d))))]),
     match answer with
     | Failure err =>
         Rejected
           (set_args err
              (ArgsValues (snd (update_statement table id (fields d)))))
     | Success rows =>
         Resolved (if status then WithStatus (Rows rows) true
                   else Bare (Rows rows))
     end).
Proof.
  intros Hsan Hnone Hexec. unfold update. rewrite Hsan, Hnone.
  destruct (update_statement table id (fields d)) as [sql values].
  simpl in Hexec. rewrite (query_run _ _ _ _ _ _ Hexec).
  destruct answer; reflexivity.
Qed.



Lemma update_sent (table : string) (id : value) (data : obj) (status : bool)
    (w w1 : world) (d : sanitized) :
  sanitizeFields table data (if status then id else VNull) w
  = (w1, Resolved d) ->
  matches d = None ->
  snd (fst (update table id data status w))
  = snd w1 ++ [Statement
                 (stamp (fst (update_statement table id (fields d))))
                 (Some (snd (update_statement table id (fields d))))].
Proof.
  intros Hsan Hnone. unfold update. rewrite Hsan, Hnone.
  destruct (update_statement table id (fields d)) as [sql values].
  pose proof (query_sent sql values EmptyString w1) as Hsent.
  destruct (query sql values EmptyString w1) as [w2 [err|res|]]; exact Hsent.
Qed.

(** C5, as the code has it. An [update] that the comparison does not skip
    sends, after the statements of [sanitizeFields], exactly one statement;
    when the table name does not contain [SET ], that statement is
    [UPDATE "<table>" SET modified = now(), ...], whatever the data. With
    sanitization disabled it is the only statement sent. *)
Theorem update_stamps_modified (table : string) (id : value) (data : obj)
    (status : bool) (w w1 : world) (d : sanitized) :
  includes "SET " table = false ->
  sanitizeFields table data (if status then id else VNull) w
  = (w1, Resolved d) ->
  matches d = None ->
  (exists rest,
     snd (fst (update table id data status w))
     = snd w1 ++ [Statement
                    ("UPDATE " +:+ quoted table +:+ " SET modified = now(), "
                     +:+ rest)
                    (Some (snd (update_statement table id (fields d))))])
  /\ (dbSanitizeFields cfg = false -> w1 = w /\ fields d = data).
Proof.
  intros Htable Hsan Hnone. split.
  - destruct (update_statement_head table id (fields d)) as [rest Hhead].
    exists rest. rewrite (update_sent _ _ _ _ _ _ _ Hsan Hnone), Hhead.
    now rewrite stamp_update.
  - intros Hoff. rewrite sanitizeFields_off in Hsan by exact Hoff.
    inversion Hsan. split; reflexivity.
Qed.

Lemma update_set_active (flds : obj) (f : string) :
  dbStatusField cfg = Some f -> f <> EmptyString ->
  truthy (get flds f) = false ->
  update_set flds
  = (assignments 1 flds ++ [f +:+ " = " +:+ dollar (length flds + 1)],
     vals flds ++ [statusActive cfg]).
Proof.
  intros Hf Hne Hfalsy. unfold update_set.
  rewrite (status_unset_some f flds Hf Hne), Hfalsy. simpl negb. cbv iota.
  rewrite length_assignments. unfold status_field_value. rewrite Hf.
  reflexivity.
Qed.

(** C10, as the code has it. When a status column is configured and the
    fields that [sanitizeFields] hands back hold no truthy value under it,
    the SET clause of the statement ends with [<status column> = $n], and
    the [n]-th argument is the Active value. With sanitization disabled
    those fields are the data map as supplied. *)
Theorem update_reasserts_active (table : string) (id : value) (flds : obj)
    (f : string) :
  dbStatusField cfg = Some f -> f <> EmptyString ->
  truthy (get flds f) = false ->
  (exists where_part key_values,
     update_statement table id flds
     = ("UPDATE " +:+ quoted table +:+ " SET "
        +:+ join ", " (assignments 1 flds
                       ++ [f +:+ " = " +:+ dollar (length flds + 1)])
        +:+ " WHERE " +:+ where_part +:+ " RETURNING *",
        (vals flds ++ [statusActive cfg]) ++ key_values))
  /\ (dbSanitizeFields cfg = false ->
      forall (status : bool) (w : world),
        snd (fst (update table id flds status w))
        = snd w ++ [Statement (stamp (fst (update_statement table id flds)))
                              (Some (snd (update_statement table id flds)))]).
Proof.
  intros Hf Hne Hfalsy. split.
  - unfold update_statement. rewrite (update_set_active flds f Hf Hne Hfalsy).
    set (values := vals flds ++ [statusActive cfg]).
    destruct (typeof_object id).
    + exists (key_clause (length values) (for_in id)), (vals (for_in id)).
      f_equal. text_norm. reflexivity.
    + exists (table +:+ "id = " +:+ dollar (length values + 1)), [id].
      f_equal. text_norm. reflexivity.
  - intros Hoff status w.
    apply (update_sent table id flds status w w (Sanitized flds None));
      [now apply sanitizeFields_off | reflexivity].
Qed.

(** ** Failures *)

Lemma insert_run (table : string) (data : obj) (conflict : value)
    (conflictUpdate : list string) (w : world) (st1 st2 : St)
    (sent1 : list statement) (d : sanitized) (answer : response) :
  sanitizeFields table data VNull w = ((st1, sent1), Resolved d) ->
  super_query (stamp (insert_sql table (fields d) conflict conflictUpdate))
              (Some (vals (fields d))) st1 = (st2, answer) ->
  insert table data conflict conflictUpdate w
  = ((st2, sent1 ++ [Statement
                       (stamp (insert_sql table (fields d) conflict
                                          conflictUpdate))
                       (Some (vals (fields d)))]),
     match answer with
     | Failure err => Rejected (set_args err (ArgsValues (vals (fields d))))
     | Success rows =>
         match rows with
         | row :: _ => Resolved (get row (table +:+ "id"))
         | [] => Unsettled
         end
     end).
Proof.
  intros Hsan Hexec. unfold insert. rewrite Hsan.
  rewrite (query_run _ _ _ _ _ _ Hexec).
  destruct answer as [err|[|row rows]]; reflexivity.
Qed.

Lemma select_run (table : string) (filter : obj) (orderBy : value)
    (w : world) (st1 st2 : St) (sent1 : list statement) (d : sanitized)
    (answer : response) :
  sanitizeFields0 table filter w = ((st1, sent1), Resolved d) ->
  super_query (stamp (select_sql table filter (fields d) orderBy))
              (Some (vals (fields d))) st1 = (st2, answer) ->
  select table filter orderBy w
  = ((st2, sent1 ++ [Statement
                       (stamp (select_sql table filter (fields d) orderBy))
                       (Some (vals (fields d)))]),
     match answer with
     | Failure _ => Rejected (Error "Failed select()" ArgsNone)
     | Success rows => Resolved rows
     end).
Proof.
  intros Hsan Hexec. unfold select. rewrite Hsan.
  rewrite (query_run _ _ _ _ _ _ Hexec).
  destruct answer; reflexivity.
Qed.

(** C7, as the code has it. Once [sanitizeFields] has resolved, a failure
    of the statement itself rejects the promise, after that one statement
    and no other: [insert] and [update] reject with the driver's error,
    tagged with the statement's argument list; [select] and [selectOne]
    reject with a new error [Failed select()] that carries no arguments. *)
Theorem failure_is_rejected_once (table : string) (st st1 st2 : St)
    (sent sent1 : list statement) (d : sanitized) (err : error) :
  (forall data conflict conflictUpdate,
     sanitizeFields table data VNull (st, sent) = ((st1, sent1), Resolved d) ->
     let sql := stamp (insert_sql table (fields d) conflict conflictUpdate) in
     let values := vals (fields d) in
     super_query sql (Some values) st1 = (st2, Failure err) ->
     insert table data conflict conflictUpdate (st, sent)
     = ((st2, sent1 ++ [Statement sql (Some values)]),
        Rejected (set_args err (ArgsValues values))))
  /\ (forall (id : value) (data : obj) (status : bool),
        sanitizeFields table data (if status then id else VNull) (st, sent)
        = ((st1, sent1), Resolved d) ->
        matches d = None ->
        let sql := stamp (fst (update_statement table id (fields d))) in
        let values := snd (update_statement table id (fields d)) in
        super_query sql (Some values) st1 = (st2, Failure err) ->
        update table id data status (st, sent)
        = ((st2, sent1 ++ [Statement sql (Some values)]),
           Rejected (set_args err (ArgsValues values))))
  /\ (forall filter orderBy,
        sanitizeFields0 table filter (st, sent) = ((st1, sent1), Resolved d) ->
        let sql := stamp (select_sql table filter (fields d) orderBy) in
        let values := vals (fields d) in
        super_query sql (Some values) st1 = (st2, Failure err) ->
        select table filter orderBy (st, sent)
        = ((st2, sent1 ++ [Statement sql (Some values)]),
           Rejected (Error "Failed select()" ArgsNone)))
  /\ (forall filter,
        sanitizeFields0 table filter (st, sent) = ((st1, sent1), Resolved d) ->
        let sql := stamp (select_sql table filter (fields d) VNull) in
        let values := vals (fields d) in
        super_query sql (Some values) st1 = (st2, Failure err) ->
        selectOne table filter (st, sent)
        = ((st2, sent1 ++ [Statement sql (Some values)]),
           Rejected (Error "Failed select()" ArgsNone))).
Proof.
  repeat split.
  - intros data conflict conflictUpdate Hsan sql values Hexec.
    exact (insert_run _ _ _ _ _ _ _ _ _ _ Hsan Hexec).
  - intros id data status Hsan Hnone sql values Hexec.
    exact (update_run _ _ _ _ _ _ _ _ _ _ Hsan Hnone Hexec).
  - intros filter orderBy Hsan sql values Hexec.
    exact (select_run _ _ _ _ _ _ _ _ _ Hsan Hexec).
  - intros filter Hsan sql values Hexec. unfold selectOne.
    now rewrite (select_run _ _ _ _ _ _ _ _ _ Hsan Hexec).
Qed.

(** [delete] goes through [query(sql, callback)]: when the statement fails,
    [buildIndex] throws on the missing result and the promise is left
    unsettled. *)
Lemma delete_failure_unsettled (table : string) (id : value)
    (idField : string) (st st' : St) (sent : list statement) (err : error) :
  super_query (delete_sql table id idField) None st = (st', Failure err) ->
  snd (delete table id idField (st, sent)) = Unsettled.
Proof.
  intros Hexec. unfold delete. now rewrite (query_cb_run _ _ _ _ _ Hexec).
Qed.

(** ** insert *)

(** An array of column names prints as the names joined by commas. *)
Lemma to_string_columns (cols : list string) :
  to_string (VArr (List.map VStr cols)) = join "," cols.
Proof.
  simpl. f_equal. rewrite List.map_map. simpl. apply List.map_id.
Qed.

Lemma doUpdates_status (flds : obj) (conflictUpdate : list string) :
  doUpdates (keys flds) conflictUpdate
  = List.map (fun c => c +:+ " = EXCLUDED." +:+ c) conflictUpdate
    ++ status_update flds.
Proof.
  unfold doUpdates, status_update, active_predicate, status_on,
    status_field_value.
  destruct (dbStatusField cfg) as [f|]; reflexivity.
Qed.

Lemma insert_sent (table : string) (data : obj) (conflict : value)
    (conflictUpdate : list string) (w w1 : world) (d : sanitized) :
  sanitizeFields table data VNull w = (w1, Resolved d) ->
  snd (fst (insert table data conflict conflictUpdate w))
  = snd w1 ++ [Statement
                 (stamp (insert_sql table (fields d) conflict conflictUpdate))
                 (Some (vals (fields d)))].
Proof.
  intros Hsan. unfold insert. rewrite Hsan.
  pose proof (query_sent (insert_sql table (fields d) conflict conflictUpdate)
                         (vals (fields d)) EmptyString w1) as Hsent.
  destruct (query _ _ _ w1) as [w2 [err|[[|row rows] ix]|]]; exact Hsent.
Qed.

(** C4, as the code has it. With [conflict] left at [null] the statement
    [insert] builds has no ON CONFLICT clause. With a non-empty array of
    conflict columns it lists exactly those columns, and its DO UPDATE SET
    assigns exactly the [conflictUpdate] columns, then the status column to
    the Active value when a status column is configured and is not among
    the inserted fields. [query] then sends that text with
    [modified = now()] as the first assignment of the SET clause (no
    [SET ] occurring earlier in the text). *)
Theorem insert_conflict_clause (table : string) (flds : obj)
    (conflictUpdate : list string) :
  insert_sql table flds VNull conflictUpdate
  = insert_head table flds +:+ "RETURNING " +:+ table +:+ "id"
  /\ forall (col : string) (cols : list string),
       let target := insert_head table flds +:+ " ON CONFLICT ("
                     +:+ join "," (col :: cols) +:+ ") DO UPDATE " in
       let sets := join ", "
                     (List.map (fun c => c +:+ " = EXCLUDED." +:+ c)
                               conflictUpdate
                      ++ status_update flds) in
       let sql := insert_sql table flds (VArr (List.map VStr (col :: cols)))
                             conflictUpdate in
       sql = target +:+ "SET " +:+ sets +:+ " RETURNING " +:+ table +:+ "id"
       /\ (includes "SET " (target +:+ "SET") = false ->
           stamp sql
           = target +:+ "SET modified = now(), " +:+ sets +:+ " RETURNING "
             +:+ table +:+ "id").
Proof.
  split.
  - unfold insert_sql, insert_head. simpl truthy. cbv iota.
    text_norm. reflexivity.
  - intros col cols target sets sql.
    assert (Hsql : sql = target +:+ "SET " +:+ sets +:+ " RETURNING "
                         +:+ table +:+ "id").
    { unfold sql, insert_sql. rewrite doUpdates_status.
      change (truthy (VArr (List.map VStr (col :: cols)))) with true.
      change (filled_array (VArr (List.map VStr (col :: cols)))) with true.
      cbv iota. rewrite to_string_columns.
      unfold target, sets, insert_head.
      generalize (join "," (col :: cols)).
      generalize (join ", " (List.map (fun c => c +:+ " = EXCLUDED." +:+ c)
                                      conflictUpdate ++ status_update flds)).
      intros a b. text_norm. reflexivity. }
    split; [exact Hsql |].
    intros Hno. rewrite Hsql. apply stamp_after; [| exact Hno].
    replace (target +:+ "SET " +:+ sets +:+ " RETURNING " +:+ table +:+ "id")
      with ((insert_head table flds +:+ " ON CONFLICT ("
             +:+ join "," (col :: cols) +:+ ") DO ")
            +:+ "UPDATE" +:+ " SET " +:+ sets +:+ " RETURNING " +:+ table
            +:+ "id").
    + apply includes_append.
    + unfold target. generalize (join "," (col :: cols)). intros b.
      generalize (insert_head table flds). intros h.
      text_norm. reflexivity.
Qed.

(** ** buildIndex *)

Lemma group_row_lookup (index : string) (groups : gmap string (list obj))
    (val : obj) :
  inherited (key_of index val) = false ->
  exists groups',
    group_row index groups val = Some groups'
    /\ forall k,
         groups' !! k
         = if String.eqb (key_of index val) k
           then Some (default [] (groups !! k) ++ [val])
           else groups !! k.
Proof.
  intros Hplain. unfold group_row. rewrite Hplain. eexists.
  split; [reflexivity |]. intros k.
  destruct (String.eqb_spec (key_of index val) k) as [-> | Hne].
  - destruct (groups !! k) as [l|] eqn:E.
    + rewrite lookup_insert_eq. now rewrite E.
    + now rewrite !lookup_insert_eq.
  - destruct (groups !! key_of index val).
    + now rewrite lookup_insert_ne.
    + now rewrite !lookup_insert_ne.
Qed.

Lemma group_rows_lookup (index : string) (rows : list obj)
    (groups : gmap string (list obj)) :
  some_key_inherited index rows = false ->
  exists grouped,
    group_rows index groups rows = Some grouped
    /\ forall k,
         grouped !! k
         = match rows_with_key index k rows with
           | [] => groups !! k
           | matched => Some (default [] (groups !! k) ++ matched)
           end.
Proof.
  revert groups. induction rows as [|row rows IH]; intros groups Hplain.
  - exists groups. split; reflexivity.
  - simpl in Hplain. apply orb_false_elim in Hplain as [Hrow Hrows].
    destruct (group_row_lookup index groups row Hrow) as (g1 & Hg1 & Hk1).
    destruct (IH g1 Hrows) as (grouped & Hgrouped & Hk).
    exists grouped. split; [simpl; now rewrite Hg1 |].
    intros k. rewrite Hk, Hk1. unfold rows_with_key. simpl.
    destruct (String.eqb (key_of index row) k); simpl.
    + destruct (List.filter _ rows); simpl;
        [reflexivity | now rewrite <- app_assoc].
    + reflexivity.
Qed.

(** The first row whose key is an inherited name stops the grouping. *)
Lemma group_rows_throws (index : string) (rows : list obj)
    (groups : gmap string (list obj)) :
  some_key_inherited index rows = true ->
  group_rows index groups rows = None.
Proof.
  revert groups. induction rows as [|row rows IH]; intros groups Hsome;
    [discriminate |].
  simpl in *. unfold group_row at 1.
  destruct (inherited (key_of index row)); [reflexivity |].
  simpl in Hsome. now apply IH.
Qed.

Lemma buildIndex_grouping (index : string) (row0 : obj) (rest : list obj) :
  index <> EmptyString ->
  hasOwnProperty row0 "hasOwnProperty" = false ->
  hasOwnProperty row0 index = true ->
  buildIndex (Some (row0 :: rest)) index
  = match group_rows index ∅ (row0 :: rest) with
    | Some groups => Some (Result (row0 :: rest) (IndexBy groups))
    | None => None
    end.
Proof.
  intros Hne Hcall Hown. unfold buildIndex. simpl truthy.
  apply String.eqb_neq in Hne. now rewrite Hne, Hcall, Hown.
Qed.

(** C9, as the code has it. For a non-empty index column name and a row
    list whose first row has that column and no column named
    [hasOwnProperty], no row's key being a name that objects inherit from
    [Object.prototype]: the grouped result maps the text of each row's
    value in that column to the list of exactly the rows whose value has
    that text, in their original order, and holds no other key. *)
Theorem buildIndex_groups (index : string) (row0 : obj) (rest : list obj) :
  index <> EmptyString ->
  hasOwnProperty row0 "hasOwnProperty" = false ->
  hasOwnProperty row0 index = true ->
  some_key_inherited index (row0 :: rest) = false ->
  exists groups,
    buildIndex (Some (row0 :: rest)) index
    = Some (Result (row0 :: rest) (IndexBy groups))
    /\ (forall row, In row (row0 :: rest) ->
          groups !! key_of index row
          = Some (rows_with_key index (key_of index row) (row0 :: rest)))
    /\ (forall k, rows_with_key index k (row0 :: rest) = [] ->
          groups !! k = None).
Proof.
  intros Hne Hcall Hown Hplain.
  destruct (group_rows_lookup index (row0 :: rest) ∅ Hplain)
    as (groups & Hgroups & Hk).
  exists groups. split; [| split].
  - rewrite (buildIndex_grouping index row0 rest Hne Hcall Hown).
    now rewrite Hgroups.
  - intros row Hin. rewrite Hk.
    destruct (rows_with_key index (key_of index row) (row0 :: rest)) eqn:E.
    + exfalso. assert (Hrow : In row (rows_with_key index (key_of index row)
                                                    (row0 :: rest))).
      { apply List.filter_In. split; [exact Hin | apply String.eqb_refl]. }
      rewrite E in Hrow. exact Hrow.
    + now rewrite lookup_empty.
  - intros k Hempty. rewrite Hk, Hempty. apply lookup_empty.
Qed.

(** ** delete and the composite key of update *)

Lemma delete_sql_hard (table : string) (id : value) (idField : string) :
  dbStatusField cfg = None ->
  delete_sql table id idField
  = "DELETE FROM " +:+ quoted table +:+ " WHERE "
    +:+ (if String.eqb idField EmptyString then table +:+ "id" else idField)
    +:+ " = " +:+ to_string id.
Proof.
  intros Hf. unfold delete_sql. now rewrite (status_on_none Hf).
Qed.

(** Whatever [dbStatusValues] holds, the soft delete writes [undefined]. *)
Lemma delete_sql_soft (table : string) (id : value) (idField f : string) :
  dbStatusField cfg = Some f -> f <> EmptyString ->
  delete_sql table id idField
  = "UPDATE " +:+ quoted table +:+ " SET " +:+ f +:+ " = undefined WHERE "
    +:+ (if String.eqb idField EmptyString then table +:+ "id" else idField)
    +:+ " = " +:+ to_string id.
Proof.
  intros Hf Hne. unfold delete_sql. rewrite (status_on_some f Hf Hne).
  unfold status_field_value. rewrite Hf. reflexivity.
Qed.

Lemma delete_resolves (table : string) (id : value) (idField : string)
    (st st' : St) (sent : list statement) (rows : list obj) :
  super_query (delete_sql table id idField) None st = (st', Success rows) ->
  delete table id idField (st, sent)
  = ((st', sent ++ [Statement (delete_sql table id idField) None]),
     Resolved true).
Proof.
  intros Hexec. unfold delete. now rewrite (query_cb_run _ _ _ _ _ Hexec).
Qed.

(** The loop over a composite key puts nothing between two pairs. *)
Lemma key_clause_pair (count : nat) (k1 k2 : string) (v1 v2 : value) :
  key_clause count [(k1, v1); (k2, v2)]
  = k1 +:+ " = " +:+ dollar (S count)
    +:+ k2 +:+ " = " +:+ dollar (S (S count)).
Proof. simpl. text_norm. reflexivity. Qed.

(** ** More about query: the timestamp, the callback, the index *)

Lemma replace_absent (pat rep s : string) :
  includes pat s = false -> replace pat rep s = s.
Proof.
  induction s as [|c s IH]; simpl; intros H.
  - apply orb_false_elim in H as [H _]. now rewrite H.
  - apply orb_false_elim in H as [Hhere Hlater].
    rewrite Hhere. now rewrite IH.
Qed.

Lemma starts_with_split (pat s : string) :
  starts_with pat s = true -> s = pat +:+ drop_chars (String.length pat) s.
Proof.
  revert s. induction pat as [|a pat IH]; intros s H; [reflexivity |].
  destruct s as [|b s]; [discriminate |]. simpl in H.
  apply andb_true_iff in H as [Hab H]. apply Ascii.eqb_eq in Hab. subst b.
  simpl. f_equal. now apply IH.
Qed.

(** Where [replace] puts the timestamp: at a [SET ] that no other one
    precedes. *)
Lemma replace_set_shape (rep s : string) :
  includes "SET " s = true ->
  exists pre post,
    s = pre +:+ "SET " +:+ post
    /\ includes "SET " (pre +:+ "SET") = false
    /\ replace "SET " rep s = pre +:+ rep +:+ post.
Proof.
  induction s as [|c s IH]; intros H; [discriminate |].
  destruct (starts_with "SET " (String c s)) eqn:Hhere.
  - exists EmptyString, (drop_chars 4 (String c s)).
    assert (E : String c s = "SET " +:+ drop_chars 4 (String c s))
      by exact (starts_with_split "SET " (String c s) Hhere).
    split; [exact E |]. split; [reflexivity |].
    now rewrite replace_here.
  - change (includes "SET " (String c s))
      with (starts_with "SET " (String c s) || includes "SET " s) in H.
    rewrite Hhere in H. simpl in H.
    destruct (IH H) as (pre & post & Es & Hno & Hrep).
    exists (String c pre), post. split; [now rewrite Es at 1 |]. split.
    + change (includes "SET " (String c pre +:+ "SET"))
        with (starts_with "SET " (String c pre +:+ "SET")
              || includes "SET " (pre +:+ "SET")).
      rewrite Hno, orb_false_r.
      rewrite <- (starts_with_fits "SET " (String c pre +:+ "SET")
                                   (String " " post)).
      * replace ((String c pre +:+ "SET") +:+ String " " post)
          with (String c s); [exact Hhere |].
        rewrite Es. simpl. f_equal. rewrite !append_assoc. reflexivity.
      * simpl. rewrite length_append. simpl. lia.
    + rewrite replace_later by exact Hhere. simpl. now rewrite Hrep.
Qed.

(** X1. [query] changes a statement only when it contains both [UPDATE]
    and [SET ]; it then inserts [modified = now(), ] once, after the first
    [SET ], and leaves the rest of the text as it was. *)
Theorem stamp_shape (sql : string) :
  (includes "UPDATE" sql && includes "SET " sql = false -> stamp sql = sql)
  /\ (includes "UPDATE" sql && includes "SET " sql = true ->
      exists pre post,
        sql = pre +:+ "SET " +:+ post
        /\ includes "SET " (pre +:+ "SET") = false
        /\ stamp sql = pre +:+ "SET modified = now(), " +:+ post).
Proof.
  unfold stamp. split; intros H.
  - destruct (includes "UPDATE" sql); [| reflexivity].
    simpl in H. now apply replace_absent.
  - apply andb_true_iff in H as [-> Hset]. now apply replace_set_shape.
Qed.

Lemma query_cb_exact (sql : string) (st : St) (sent : list statement) :
  query_cb sql EmptyString (st, sent)
  = ((fst (super_query sql None st), sent ++ [Statement sql None]),
     answered_cb (snd (super_query sql None st))).
Proof.
  apply query_cb_run. now destruct (super_query sql None st).
Qed.

(** X2. [query(sql, callback)] sends the text as given, with no argument
    list and no timestamp; on success the callback gets the driver's rows
    and an empty index; on failure the callback is never called, with an
    error or otherwise. *)
Theorem query_cb_never_reports_failure (sql : string) (st : St)
    (sent : list statement) :
  snd (fst (query_cb sql EmptyString (st, sent)))
  = sent ++ [Statement sql None]
  /\ snd (query_cb sql EmptyString (st, sent))
     = match snd (super_query sql None st) with
       | Failure _ => NotCalled
       | Success rows => CallOk (Result rows NoIndex)
       end
  /\ forall err, snd (query_cb sql EmptyString (st, sent)) <> CallErr err.
Proof.
  rewrite query_cb_exact. simpl. split; [reflexivity |]. split.
  - reflexivity.
  - intros err. destruct (snd (super_query sql None st)); discriminate.
Qed.

(** [query(sql, args, callback)] sends exactly one statement, the stamped
    text with [args]; on failure the callback gets the driver's error with
    [args] attached and no result; on success it gets the rows as the
    driver gave them. *)
Lemma query_exact (sql : string) (args : list value) (st : St)
    (sent : list statement) :
  query sql args EmptyString (st, sent)
  = ((fst (super_query (stamp sql) (Some args) st),
      sent ++ [Statement (stamp sql) (Some args)]),
     match snd (super_query (stamp sql) (Some args) st) with
     | Failure err => CallErr (Error (message err) (ArgsValues args))
     | Success rows => CallOk (Result rows NoIndex)
     end).
Proof.
  rewrite (query_run sql args st (fst (super_query (stamp sql) (Some args) st))
                     sent (snd (super_query (stamp sql) (Some args) st)))
    by now destruct (super_query (stamp sql) (Some args) st).
  now destruct (snd (super_query (stamp sql) (Some args) st)).
Qed.

(** X3. What [buildIndex] does with a result. With an empty index name
    or no row it returns the rows with an empty [irows]. Otherwise it
    throws when the first row has a column named [hasOwnProperty]; returns
    the rows with an empty [irows] when the first row lacks the index
    column; throws when some row's key is a name that objects inherit from
    [Object.prototype]; and in the remaining case returns the rows,
    unchanged, with the grouped index. *)
Theorem buildIndex_when (index : string) :
  (forall rows, index = EmptyString \/ rows = [] ->
     buildIndex (Some rows) index = Some (Result rows NoIndex))
  /\ (forall row0 rest, index <> EmptyString ->
      let rows := row0 :: rest in
      (hasOwnProperty row0 "hasOwnProperty" = true ->
       buildIndex (Some rows) index = None)
      /\ (hasOwnProperty row0 "hasOwnProperty" = false ->
          hasOwnProperty row0 index = false ->
          buildIndex (Some rows) index = Some (Result rows NoIndex))
      /\ (hasOwnProperty row0 "hasOwnProperty" = false ->
          hasOwnProperty row0 index = true ->
          some_key_inherited index rows = true ->
          buildIndex (Some rows) index = None)
      /\ (hasOwnProperty row0 "hasOwnProperty" = false ->
          hasOwnProperty row0 index = true ->
          some_key_inherited index rows = false ->
          exists groups,
            buildIndex (Some rows) index
            = Some (Result rows (IndexBy groups)))).
Proof.
  split.
  - intros rows [-> | ->]; [apply buildIndex_no_index | reflexivity].
  - intros row0 rest Hne rows. subst rows.
    pose proof Hne as Hne'. apply String.eqb_neq in Hne'.
    repeat split.
    + intros Hcall. unfold buildIndex. simpl truthy.
      now rewrite Hne', Hcall.
    + intros Hcall Hown. unfold buildIndex. simpl truthy.
      now rewrite Hne', Hcall, Hown.
    + intros Hcall Hown Hsome. rewrite buildIndex_grouping by assumption.
      now rewrite group_rows_throws.
    + intros Hcall Hown Hplain. rewrite buildIndex_grouping by assumption.
      destruct (group_rows_lookup index (row0 :: rest) ∅ Hplain)
        as (groups & -> & _).
      now exists groups.
Qed.

(** X4. Only the first row is asked for the index column. When the index
    name is not one that objects inherit and the grouping does not throw,
    a later row without the column is filed under the key [undefined]. *)
Theorem buildIndex_files_missing_under_undefined (index : string)
    (row0 row : obj) (rest : list obj) :
  index <> EmptyString ->
  inherited index = false ->
  hasOwnProperty row0 "hasOwnProperty" = false ->
  hasOwnProperty row0 index = true ->
  some_key_inherited index (row0 :: rest) = false ->
  In row rest ->
  hasOwnProperty row index = false ->
  exists groups filed,
    buildIndex (Some (row0 :: rest)) index
    = Some (Result (row0 :: rest) (IndexBy groups))
    /\ groups !! "undefined" = Some filed
    /\ In row filed.
Proof.
  intros Hne Hindex Hcall Hown Hplain Hin Hmiss.
  assert (Hkey : key_of index row = "undefined").
  { unfold key_of. unfold hasOwnProperty in Hmiss.
    destruct (own index row); [discriminate |]. now rewrite Hindex. }
  assert (Hrow : In row (rows_with_key index "undefined" (row0 :: rest))).
  { apply List.filter_In. split; [now right |].
    rewrite Hkey. apply String.eqb_refl. }
  destruct (group_rows_lookup index (row0 :: rest) ∅ Hplain)
    as (groups & Hgroups & Hk).
  exists groups, (rows_with_key index "undefined" (row0 :: rest)).
  split; [| split; [| exact Hrow]].
  - rewrite (buildIndex_grouping index row0 rest Hne Hcall Hown).
    now rewrite Hgroups.
  - rewrite Hk.
    destruct (rows_with_key index "undefined" (row0 :: rest));
      [contradiction |].
    now rewrite lookup_empty.
Qed.

(** ** Transactions, delete, and what never settles *)

(** X5. With the flag off, [begin], [abort] and [commit] send nothing and
    call back at once with no argument. With the flag on, each sends
    exactly its keyword, with no argument list; the callback gets the rows
    on success and is never called when the statement fails. *)
Theorem transaction_verbs (st : St) (sent : list statement) :
  (begin false (st, sent) = ((st, sent), Bare_call)
   /\ abort false (st, sent) = ((st, sent), Bare_call)
   /\ commit false (st, sent) = ((st, sent), Bare_call))
  /\ (let sends keyword :=
        ((fst (super_query keyword None st),
          sent ++ [Statement keyword None]),
         Through match snd (super_query keyword None st) with
                 | Failure _ => NotCalled
                 | Success rows => CallOk (Result rows NoIndex)
                 end) in
      begin true (st, sent) = sends "BEGIN"
      /\ abort true (st, sent) = sends "ABORT"
      /\ commit true (st, sent) = sends "COMMIT").
Proof.
  split; [repeat split |].
  unfold begin, abort, commit. rewrite !query_cb_exact.
  repeat split.
Qed.

(** X6. [delete] sends exactly one statement: its text as built, with the
    id inside the text and no argument list, and without the timestamp
    that [update] gets. It resolves to [true] when the statement succeeds,
    and never settles when it fails: it never rejects. *)
Theorem delete_exact (table : string) (id : value) (idField : string)
    (st : St) (sent : list statement) :
  let sql := delete_sql table id idField in
  delete table id idField (st, sent)
  = ((fst (super_query sql None st), sent ++ [Statement sql None]),
     match snd (super_query sql None st) with
     | Failure _ => Unsettled
     | Success _ => Resolved true
     end).
Proof.
  intros sql. unfold delete. fold sql. rewrite query_cb_exact.
  now destruct (snd (super_query sql None st)).
Qed.

Lemma waitFor_never_rejects (table : string) (compareId : value) (w : world)
    (err : error) :
  snd (waitFor table compareId w) <> Rejected err.
Proof.
  unfold waitFor. destruct (truthy compareId); [| discriminate].
  destruct (selectOne _ _ w) as [w1 [row|e|]]; discriminate.
Qed.

Lemma sanitizeFields_schema_failure (table : string) (flds : obj)
    (compareId : value) (st st' : St) (sent : list statement) (err : error) :
  dbSanitizeFields cfg = true ->
  super_query (schema_sql table) None st = (st', Failure err) ->
  sanitizeFields table flds compareId (st, sent)
  = ((st', sent ++ [Statement (schema_sql table) None]), Unsettled).
Proof.
  intros Hon Hexec. unfold sanitizeFields. rewrite Hon.
  now rewrite (query_cb_run _ _ _ _ _ Hexec).
Qed.

(** X7. [sanitizeFields] never rejects: the error [Failed To Gather
    Columns] is never delivered. When the schema lookup fails the promise
    stays unsettled, after that one statement. *)
Theorem sanitizeFields_never_rejects (table : string) (flds : obj)
    (compareId : value) (st : St) (sent : list statement) :
  (forall err,
     snd (sanitizeFields table flds compareId (st, sent)) <> Rejected err)
  /\ (dbSanitizeFields cfg = true ->
      forall st' err,
        super_query (schema_sql table) None st = (st', Failure err) ->
        sanitizeFields table flds compareId (st, sent)
        = ((st', sent ++ [Statement (schema_sql table) None]), Unsettled)).
Proof.
  split.
  - intros err. unfold sanitizeFields.
    destruct (dbSanitizeFields cfg); [| discriminate].
    rewrite query_cb_exact.
    destruct (snd (super_query (schema_sql table) None st)) as [e|columns];
      simpl; [discriminate |].
    pose proof (waitFor_never_rejects table compareId
                  (fst (super_query (schema_sql table) None st),
                   sent ++ [Statement (schema_sql table) None])) as Hw.
    destruct (waitFor _ _ _) as [w2 [old|e|]]; simpl in *;
      [discriminate | | discriminate].
    exfalso. now apply (Hw e).
  - intros Hon st' err Hexec.
    now apply sanitizeFields_schema_failure with (err := err).
Qed.

Lemma sanitizeFields0_schema_failure (table : string) (flds : obj) (st st' : St)
    (sent : list statement) (err : error) :
  dbSanitizeFields cfg = true ->
  super_query (schema_sql table) None st = (st', Failure err) ->
  sanitizeFields0 table flds (st, sent)
  = ((st', sent ++ [Statement (schema_sql table) None]), Unsettled).
Proof.
  intros Hon Hexec. unfold sanitizeFields0. rewrite Hon.
  now rewrite (query_cb_run _ _ _ _ _ Hexec).
Qed.

(** X8. Sanitization on and the schema lookup failing: [select],
    [selectOne], [insert] and [update] send nothing after the lookup, and
    their promises neither resolve nor reject. *)
Theorem schema_failure_hangs (table : string) (st st' : St)
    (sent : list statement) (err : error) :
  dbSanitizeFields cfg = true ->
  super_query (schema_sql table) None st = (st', Failure err) ->
  let stuck := (st', sent ++ [Statement (schema_sql table) None]) in
  (forall filter orderBy,
     select table filter orderBy (st, sent) = (stuck, Unsettled))
  /\ (forall filter, selectOne table filter (st, sent) = (stuck, Unsettled))
  /\ (forall data conflict conflictUpdate,
        insert table data conflict conflictUpdate (st, sent)
        = (stuck, Unsettled))
  /\ (forall id data status,
        update table id data status (st, sent) = (stuck, Unsettled)).
Proof.
  intros Hon Hexec stuck.
  assert (Hsel : forall filter orderBy,
             select table filter orderBy (st, sent) = (stuck, Unsettled)).
  { intros filter orderBy. unfold select.
    now rewrite (sanitizeFields0_schema_failure _ _ _ _ _ _ Hon Hexec). }
  assert (Hsan : forall flds compareId,
             sanitizeFields table flds compareId (st, sent)
             = (stuck, Unsettled)).
  { intros flds compareId.
    now apply sanitizeFields_schema_failure with (err := err). }
  repeat split.
  - exact Hsel.
  - intros filter. unfold selectOne. now rewrite Hsel.
  - intros data conflict conflictUpdate. unfold insert. now rewrite Hsan.
  - intros id data status. unfold update. now rewrite Hsan.
Qed.

(** X9. The comparison on and the lookup of the existing row rejected:
    [update] sends no UPDATE and its promise never settles. *)
Theorem compare_lookup_failure_hangs (table : string) (id : value)
    (data : obj) (st st1 : St) (sent : list statement) (columns : list obj)
    (w2 : world) (err : error) :
  dbSanitizeFields cfg = true ->
  truthy id = true ->
  super_query (schema_sql table) None st = (st1, Success columns) ->
  selectOne table [(table +:+ "id", id)]
            (st1, sent ++ [Statement (schema_sql table) None])
  = (w2, Rejected err) ->
  update table id data true (st, sent) = (w2, Unsettled)
  /\ updates (snd w2) = updates sent.
Proof.
  intros Hon Hid Hschema Hlookup. split.
  - unfold update, sanitizeFields. rewrite Hon.
    rewrite (query_cb_run _ _ _ _ _ Hschema). simpl answered_cb. cbv iota.
    unfold waitFor. rewrite Hid, Hlookup. reflexivity.
  - pose proof (selectOne_updates table [(table +:+ "id", id)]
                  (st1, sent ++ [Statement (schema_sql table) None])) as H.
    rewrite Hlookup in H. simpl in H. rewrite H.
    apply updates_snoc_other, schema_not_update.
Qed.

(** ** Placeholders and arguments *)

Lemma loops_align_from (k : nat) (flds : obj) (i : nat) (field : string)
    (v : value) :
  nth_error flds i = Some (field, v) ->
  nth_error (assignments k flds) i
  = Some (field +:+ " = " +:+ dollar (k + i))
  /\ nth_error (indexes_from k flds) i = Some (dollar (k + i))
  /\ nth_error (keys flds) i = Some field
  /\ nth_error (vals flds) i = Some v.
Proof.
  revert k i. induction flds as [|[field' v'] rest IH]; intros k i H.
  - destruct i; discriminate.
  - destruct i as [|i]; simpl in *.
    + inversion H; subst. rewrite Nat.add_0_r. repeat split.
    + replace (k + S i) with (S k + i) by lia. now apply IH.
Qed.

(** X10. The loops of [select], [update] and [insert] number the fields
    from 1 in their order: the field at position [i] (from 0) gets the
    placeholder [$i+1], and the argument at that position is its value. *)
Theorem placeholders_follow_arguments (flds : obj) (i : nat) (field : string)
    (v : value) :
  nth_error flds i = Some (field, v) ->
  nth_error (assignments 1 flds) i = Some (field +:+ " = " +:+ dollar (S i))
  /\ nth_error (indexes_from 1 flds) i = Some (dollar (S i))
  /\ nth_error (keys flds) i = Some field
  /\ nth_error (vals flds) i = Some v.
Proof. intros H. exact (loops_align_from 1 flds i field v H). Qed.

(** X11. The WHERE clause of [update]. A scalar id is the last argument
    and [<table>id] gets its placeholder; a composite key of one column
    gives [<column> = $n] with the column's value last; [null] and the
    empty object give an empty condition and add no argument. *)
Theorem update_where_clause (table : string) (flds : obj) :
  let set_clause := join ", " (fst (update_set flds)) in
  let front := snd (update_set flds) in
  let built where_part key_values :=
    ("UPDATE " +:+ quoted table +:+ " SET " +:+ set_clause +:+ " WHERE "
     +:+ where_part +:+ " RETURNING *",
     front ++ key_values) in
  (forall id, typeof_object id = false ->
     update_statement table id flds
     = built (table +:+ "id = " +:+ dollar (length front + 1)) [id])
  /\ (forall k v,
        update_statement table (VObj [(k, v)]) flds
        = built (k +:+ " = " +:+ dollar (length front + 1)) [v])
  /\ update_statement table VNull flds = built EmptyString []
  /\ update_statement table (VObj []) flds = built EmptyString [].
Proof.
  intros set_clause front built. unfold built, set_clause, front.
  unfold update_statement.
  destruct (update_set flds) as [setFields values]. simpl fst. simpl snd.
  repeat split.
  - intros id Hid. rewrite Hid. f_equal. text_norm. reflexivity.
  - intros k v. rewrite Nat.add_1_r. simpl. f_equal. do 2 text_norm.
    reflexivity.
  - simpl. f_equal. do 2 text_norm. reflexivity.
  - simpl. f_equal. do 2 text_norm. reflexivity.
Qed.

Lemma select_sql_shape (table : string) (filter flds : obj) (orderBy : value) :
  select_sql table filter flds orderBy
  = "SELECT * FROM " +:+ quoted table
    +:+ where_clause (assignments 1 flds
                      ++ (if status_unset filter then [active_predicate]
                          else []))
    +:+ order_clause orderBy.
Proof.
  unfold select_sql, order_clause, where_clause.
  destruct (assignments 1 flds ++ _) as [|m ms]; simpl length; simpl negb;
    cbv iota; destruct (truthy orderBy); text_norm; reflexivity.
Qed.

(** X12. With a status column configured, a filter that holds a truthy
    value under it gets no implicit predicate; a filter that holds a falsy
    one (0, [null], the empty text) gets the Active predicate besides its
    own predicate on that column. *)
Theorem select_explicit_status (table : string) (filter flds : obj)
    (orderBy : value) (f : string) :
  dbStatusField cfg = Some f -> f <> EmptyString ->
  select_sql table filter flds orderBy
  = "SELECT * FROM " +:+ quoted table
    +:+ where_clause
          (assignments 1 flds
           ++ (if truthy (get filter f) then []
               else [f +:+ " = " +:+ to_string (statusActive cfg)]))
    +:+ order_clause orderBy.
Proof.
  intros Hf Hne. rewrite select_sql_shape.
  rewrite (status_unset_some f filter Hf Hne), (active_predicate_some f Hf).
  now destruct (truthy (get filter f)).
Qed.

(** X13. When the fields hold a truthy value under the status column, or
    no status column is configured, [update] adds no status assignment:
    the SET clause is the fields' own assignments and the arguments are
    their values followed by the key's. *)
Theorem update_explicit_status (table : string) (id : value) (flds : obj) :
  (dbStatusField cfg = None
   \/ exists f, dbStatusField cfg = Some f /\ truthy (get flds f) = true) ->
  exists where_part key_values,
    update_statement table id flds
    = ("UPDATE " +:+ quoted table +:+ " SET "
       +:+ join ", " (assignments 1 flds) +:+ " WHERE " +:+ where_part
       +:+ " RETURNING *",
       vals flds ++ key_values).
Proof.
  intros H.
  assert (Hset : update_set flds = (assignments 1 flds, vals flds)).
  { unfold update_set, status_unset. destruct H as [Hf | (f & Hf & Htrue)].
    - rewrite (status_on_none Hf). now rewrite andb_false_r.
    - unfold status_field_value. rewrite Hf. simpl to_string.
      now rewrite Htrue. }
  unfold update_statement. rewrite Hset. destruct (typeof_object id).
  - exists (key_clause (length (vals flds)) (for_in id)), (vals (for_in id)).
    f_equal. text_norm. reflexivity.
  - exists (table +:+ "id = " +:+ dollar (length (vals flds) + 1)), [id].
    f_equal. text_norm. reflexivity.
Qed.

(** ** Sanitization inside the operations *)

(** X14. Sanitization on: [select] first looks the schema up, then sends
    its statement built from the filter keys that the schema names, with
    their values as arguments. A filter key the schema does not name is
    left out of the WHERE clause. *)
Theorem select_sanitizes_filter (table : string) (filter : obj)
    (orderBy : value) (st st1 : St) (sent : list statement)
    (columns : list obj) :
  dbSanitizeFields cfg = true ->
  super_query (schema_sql table) None st = (st1, Success columns) ->
  let kept := fst (sanitize_loop columns VNull [] filter) in
  snd (fst (select table filter orderBy (st, sent)))
  = sent ++ [Statement (schema_sql table) None;
             Statement (stamp (select_sql table filter kept orderBy))
                       (Some (vals kept))]
  /\ keys kept = List.filter (has_column columns) (keys filter).
Proof.
  intros Hon Hschema kept. split; [| apply sanitize_loop_keys].
  assert (Hsan : sanitizeFields0 table filter (st, sent)
                 = ((st1, sent ++ [Statement (schema_sql table) None]),
                    Resolved (sanitize_answer columns VNull [] filter))).
  { unfold sanitizeFields0. rewrite Hon.
    now rewrite (query_cb_run _ _ _ _ _ Hschema). }
  rewrite (select_sent _ _ _ _ _ _ Hsan), fields_sanitize_answer.
  simpl snd. now rewrite <- app_assoc.
Qed.

Lemma matches_none_without_compare (table : string) (flds : obj)
    (compareId : value) (w w1 : world) (d : sanitized) :
  truthy compareId = false ->
  sanitizeFields table flds compareId w = (w1, Resolved d) ->
  matches d = None.
Proof.
  intros Hid. unfold sanitizeFields.
  destruct (dbSanitizeFields cfg).
  - destruct (query_cb _ _ w) as [w' [err|res|]]; try discriminate.
    destruct (waitFor _ _ w') as [w2 [old|err|]]; try discriminate.
    intros H. inversion H. rewrite matches_sanitize_answer, Hid.
    reflexivity.
  - intros H. now inversion H.
Qed.

(** X15. The comparison needs the status flag and a truthy id. Without
    them [sanitizeFields] never reports a match, and [update] sends its
    UPDATE statement whether or not the values differ from the row's. *)
Theorem update_without_compare_writes (table : string) (id : value)
    (data : obj) (status : bool) (w w1 : world) (d : sanitized) :
  truthy (if status then id else VNull) = false ->
  sanitizeFields table data (if status then id else VNull) w
  = (w1, Resolved d) ->
  let sql := stamp (fst (update_statement table id (fields d))) in
  let values := snd (update_statement table id (fields d)) in
  matches d = None
  /\ snd (fst (update table id data status w))
     = snd w1 ++ [Statement sql (Some values)]
  /\ is_update (Statement sql (Some values)) = true.
Proof.
  intros Hid Hsan sql values.
  pose proof (matches_none_without_compare _ _ _ _ _ _ Hid Hsan) as Hnone.
  split; [exact Hnone |]. split.
  - exact (update_sent _ _ _ _ _ _ _ Hsan Hnone).
  - apply update_is_update.
Qed.

(** X16. Sanitization passes a field through unchanged when its column is
    of a type other than [bit], [character varying], [json] and [jsonb]:
    on a field map whose keys are all such columns it is the identity. *)
Theorem sanitize_plain_columns_identity (columns : list obj)
    (compareId : value) (oldData flds : obj) :
  (forall field v, In (field, v) flds ->
     exists col, find_column columns field = Some col
                 /\ plain_type (get col "data_type") = true) ->
  fst (sanitize_loop columns compareId oldData flds) = flds.
Proof.
  induction flds as [|[field v] rest IH]; intros H; simpl; [reflexivity |].
  destruct (sanitize_loop columns compareId oldData rest) as [kept olds].
  simpl in IH.
  destruct (H field v (or_introl eq_refl)) as (col & Hcol & Hplain).
  rewrite Hcol. simpl. rewrite IH by (intros f' v' Hin; apply (H f' v'); now right).
  f_equal. f_equal. unfold coerce, plain_type in *.
  destruct (get col "data_type") as [| |b|n|t|items|props]; try reflexivity.
  apply negb_true_iff in Hplain.
  apply orb_false_elim in Hplain as [Hplain Hjsonb].
  apply orb_false_elim in Hplain as [Hplain Hjson].
  apply orb_false_elim in Hplain as [Hbit Hchar].
  now rewrite Hbit, Hchar, Hjson, Hjsonb.
Qed.

Lemma sanitize_loop_origin (columns : list obj) (compareId : value)
    (oldData flds : obj) (field : string) (v' : value) :
  In (field, v') (fst (sanitize_loop columns compareId oldData flds)) ->
  exists v col,
    In (field, v) flds /\ find_column columns field = Some col
    /\ v' = coerce (get col "data_type") v.
Proof.
  induction flds as [|[field0 v0] rest IH]; simpl; [contradiction |].
  destruct (sanitize_loop columns compareId oldData rest) as [kept olds].
  simpl in IH.
  destruct (find_column columns field0) as [col|] eqn:Hcol; simpl.
  - intros [Heq | Hin].
    + inversion Heq; subst. exists v0, col.
      split; [now left |]. now split.
    + destruct (IH Hin) as (v & c & Hv & Hc & Hv'). exists v, c.
      split; [now right |]. now split.
  - intros Hin. destruct (IH Hin) as (v & c & Hv & Hc & Hv'). exists v, c.
    split; [now right |]. now split.
Qed.

(** X17. Every sanitized field comes from a given field whose key the
    schema names. In a [bit] column its value is the text ['1'] when the
    given value is truthy and ['0'] otherwise; in a [character varying]
    column it is [null] when the given value is [null] and its text
    otherwise. *)
Theorem sanitized_values (columns : list obj) (compareId : value)
    (oldData flds : obj) (field : string) (v' : value) :
  In (field, v') (fst (sanitize_loop columns compareId oldData flds)) ->
  exists v col,
    In (field, v) flds /\ find_column columns field = Some col
    /\ (get col "data_type" = VStr "bit" ->
        v' = VStr (if truthy v then "1" else "0"))
    /\ (get col "data_type" = VStr "character varying" ->
        v' = match v with VNull => VNull | _ => VStr (to_string v) end).
Proof.
  intros Hin.
  destruct (sanitize_loop_origin _ _ _ _ _ _ Hin) as (v & col & Hv & Hc & ->).
  exists v, col. repeat split; try assumption.
  - intros ->. simpl. now destruct (truthy v).
  - intros ->. reflexivity.
Qed.

(** ** What the operations resolve to *)

(** X18. Once [sanitizeFields] has resolved and the driver has answered
    with rows, [selectOne] resolves to the first row, and to the empty
    object when there is none: no match is not an error. Its statement
    is the one [select] builds with [orderBy] left at [null]. *)
Theorem selectOne_first_or_empty (table : string) (filter : obj)
    (st st1 st2 : St) (sent sent1 : list statement) (d : sanitized)
    (rows : list obj) :
  sanitizeFields0 table filter (st, sent) = ((st1, sent1), Resolved d) ->
  let sql := stamp (select_sql table filter (fields d) VNull) in
  super_query sql (Some (vals (fields d))) st1 = (st2, Success rows) ->
  selectOne table filter (st, sent)
  = ((st2, sent1 ++ [Statement sql (Some (vals (fields d)))]),
     Resolved (match rows with row :: _ => row | [] => [] end)).
Proof.
  intros Hsan sql Hexec. unfold selectOne.
  now rewrite (select_run _ _ _ _ _ _ _ _ _ Hsan Hexec).
Qed.

(** X19. Once [sanitizeFields] has resolved and the driver has answered
    with rows, [insert] resolves to what the first row holds under
    [<table>id], [undefined] when the row has no such key; when the driver
    answers with no row, the promise never settles. *)
Theorem insert_resolves_first_id (table : string) (data : obj)
    (conflict : value) (conflictUpdate : list string) (st st1 st2 : St)
    (sent sent1 : list statement) (d : sanitized) (rows : list obj) :
  sanitizeFields table data VNull (st, sent) = ((st1, sent1), Resolved d) ->
  let sql := stamp (insert_sql table (fields d) conflict conflictUpdate) in
  super_query sql (Some (vals (fields d))) st1 = (st2, Success rows) ->
  insert table data conflict conflictUpdate (st, sent)
  = ((st2, sent1 ++ [Statement sql (Some (vals (fields d)))]),
     match rows with
     | row :: _ =>
         Resolved (match own (table +:+ "id") row with
                   | Some v => v
                   | None => VUndef
                   end)
     | [] => Unsettled
     end).
Proof.
  intros Hsan sql Hexec.
  rewrite (insert_run _ _ _ _ _ _ _ _ _ _ Hsan Hexec).
  now destruct rows.
Qed.

(** X20. The forms of [conflict]. A falsy one ([null], [undefined], the
    empty text) gives no ON CONFLICT clause; the empty array gives the
    clause with an empty target; a non-empty text is placed in the clause
    as it is. *)
Theorem insert_conflict_forms (table : string) (flds : obj)
    (conflictUpdate : list string) :
  let sets := join ", " (doUpdates (keys flds) conflictUpdate) in
  let tail := "RETURNING " +:+ table +:+ "id" in
  (forall conflict, truthy conflict = false ->
     insert_sql table flds conflict conflictUpdate
     = insert_head table flds +:+ tail)
  /\ insert_sql table flds (VArr []) conflictUpdate
     = insert_head table flds +:+ " ON CONFLICT  DO UPDATE SET " +:+ sets
       +:+ " " +:+ tail
  /\ (forall target, target <> EmptyString ->
        insert_sql table flds (VStr target) conflictUpdate
        = insert_head table flds +:+ " ON CONFLICT " +:+ target
          +:+ " DO UPDATE SET " +:+ sets +:+ " " +:+ tail).
Proof.
  intros sets tail. unfold sets, tail, insert_sql, insert_head.
  generalize (join ", " (doUpdates (keys flds) conflictUpdate)). intros u.
  repeat split.
  - intros conflict ->. do 3 text_norm. reflexivity.
  - simpl. do 3 text_norm. reflexivity.
  - intros target Hne. simpl truthy. apply String.eqb_neq in Hne.
    rewrite Hne. simpl. do 3 text_norm. reflexivity.
Qed.

Lemma sanitizeFields0_sent (table : string) (flds : obj) (w : world) :
  snd (fst (sanitizeFields0 table flds w))
  = snd w ++ (if dbSanitizeFields cfg
              then [Statement (schema_sql table) None] else []).
Proof.
  unfold sanitizeFields0. destruct (dbSanitizeFields cfg).
  - pose proof (query_cb_sent (schema_sql table) EmptyString w) as H.
    destruct (query_cb _ _ w) as [w1 [err|res|]]; exact H.
  - simpl. now rewrite app_nil_r.
Qed.

(** X21. [select] sends at most two statements, the schema lookup and its
    own, and each of them begins with [SELECT]. *)
Theorem select_sends_only_select (table : string) (filter : obj)
    (orderBy : value) (w : world) :
  exists added,
    snd (fst (select table filter orderBy w)) = snd w ++ added
    /\ length added <= 2
    /\ Forall (fun s => starts_with "SELECT" (text s) = true) added.
Proof.
  assert (Hschema : starts_with "SELECT"
                      (text (Statement (schema_sql table) None)) = true)
    by reflexivity.
  assert (Hpre : exists pre,
             snd (fst (sanitizeFields0 table filter w)) = snd w ++ pre
             /\ length pre <= 1
             /\ Forall (fun s => starts_with "SELECT" (text s) = true) pre).
  { rewrite sanitizeFields0_sent. eexists. split; [reflexivity |].
    destruct (dbSanitizeFields cfg); simpl; split; try lia; auto. }
  destruct Hpre as (pre & Hsent & Hlen & Hall).
  unfold select.
  destruct (sanitizeFields0 table filter w) as [w1 [d|err|]];
    simpl in Hsent; try (exists pre; simpl; split; [exact Hsent |];
                         split; [lia | exact Hall]).
  pose proof (query_sent (select_sql table filter (fields d) orderBy)
                         (vals (fields d)) EmptyString w1) as Hq.
  exists (pre ++ [Statement (stamp (select_sql table filter (fields d) orderBy))
                            (Some (vals (fields d)))]).
  split; [| split].
  - destruct (query _ _ _ w1) as [w2 [err|res|]]; simpl in *;
      rewrite Hq, Hsent; now rewrite <- app_assoc.
  - rewrite length_app. simpl. lia.
  - apply Forall_app. split; [exact Hall |]. constructor; [| constructor].
    destruct (select_sql_head table filter (fields d) orderBy) as [rest ->].
    simpl text. apply stamp_keeps_select.
Qed.

End Client.
End DB.

(** ** The code on the small database *)

Definition fresh : @DB.world unit := (tt, []).

Definition toy_select :=
  DB.select toy_db toy_stringify toy_isEqual toy_loose_eq.
Definition toy_waitFor :=
  DB.waitFor toy_db toy_stringify toy_isEqual toy_loose_eq.
Definition toy_sanitizeFields :=
  DB.sanitizeFields toy_db toy_stringify toy_isEqual toy_loose_eq.
Definition toy_update :=
  DB.update toy_db toy_stringify toy_isEqual toy_loose_eq.
Definition toy_insert :=
  DB.insert toy_db toy_stringify toy_isEqual toy_loose_eq.
Definition down_select :=
  DB.select down_db toy_stringify toy_isEqual toy_loose_eq.
Definition down_insert :=
  DB.insert down_db toy_stringify toy_isEqual toy_loose_eq.

Definition schema_lookup : statement :=
  Statement (DB.schema_sql "users") None.

Definition row_lookup : statement :=
  Statement ("SELECT * FROM " +:+ quoted "users"
             +:+ " WHERE usersid = $1 AND datastateid = 1")
            (Some [VNum 7]).

(** C1: a composite key of two columns. The two pairs of the WHERE clause
    run together, [a = $3b = $4], with no [AND] between them. *)
Theorem update_composite_key_runs_together :
  snd (fst (toy_update shipped "t" (VObj [("a", VNum 1); ("b", VNum 2)])
                       [("x", VNum 5)] false fresh))
  = [Statement
       ("UPDATE " +:+ quoted "t"
        +:+ " SET modified = now(), x = $1, datastateid = $2 WHERE a = $3b = $4 RETURNING *")
       (Some [VNum 5; VNull; VNum 1; VNum 2])].
Proof. vm_compute. reflexivity. Qed.

(** C6: the soft delete reads [dbStatusValues.Deleted], which the
    configuration does not declare (it declares [Delete], here 2): the
    statement sets the status column to the text [undefined]. *)
Theorem delete_soft_sets_undefined :
  statusDelete numbered = VNum 2
  /\ DB.delete_sql numbered "users" (VNum 7) EmptyString
     = "UPDATE " +:+ quoted "users"
       +:+ " SET datastateid = undefined WHERE usersid = 7".
Proof. split; reflexivity. Qed.

(** A filter on [name] alone, under the shipped configuration. *)
Lemma select_status_predicate_witness :
  DB.select_sql shipped "users" [("name", VStr "Bob")] [("name", VStr "Bob")]
                VNull
  = "SELECT * FROM " +:+ quoted "users"
    +:+ " WHERE name = $1 AND datastateid = null".
Proof.
  exact (proj1 (DB.select_status_predicate
                  toy_db toy_stringify toy_isEqual toy_loose_eq shipped
                  "users" [("name", VStr "Bob")] [("name", VStr "Bob")] VNull)
               "datastateid" eq_refl ltac:(discriminate) eq_refl).
Defined.

(** A field map with one unknown key, a number for the name and 0 for the
    status, sanitization on. *)
Lemma sanitizeFields_drops_unknown_witness :
  exists data,
    toy_sanitizeFields sanitizing "users"
                       [("bogus_col", VNum 1); ("name", VNum 5);
                        ("datastateid", VNum 0)] VNull fresh
    = ((tt, [schema_lookup]), Resolved data)
    /\ keys (fields data) = ["name"; "datastateid"]
    /\ In ("name", VStr "5") (fields data)
    /\ In ("datastateid", VStr "0") (fields data).
Proof.
  destruct (proj2 (DB.sanitizeFields_drops_unknown
                     toy_db toy_stringify toy_isEqual toy_loose_eq sanitizing
                     "users"
                     [("bogus_col", VNum 1); ("name", VNum 5);
                      ("datastateid", VNum 0)]
                     VNull tt [])
                  eq_refl tt toy_columns (tt, [schema_lookup]) [] eq_refl
                  eq_refl)
    as (data & Hrun & Hkeys & Hvalues).
  destruct (Hvalues "name" (VNum 5) (column "name" "character varying")
                    (or_intror (or_introl eq_refl)) eq_refl)
    as (name & Hname & _ & Htext & _).
  destruct (Hvalues "datastateid" (VNum 0) (column "datastateid" "bit")
                    (or_intror (or_intror (or_introl eq_refl))) eq_refl)
    as (status & Hstatus & Hbit & _).
  rewrite (Htext eq_refl) in Hname. rewrite (Hbit eq_refl) in Hstatus.
  exists data. repeat split; assumption.
Defined.


(** C5: sanitization and the comparison on, the row unchanged. Three
    statements are sent and none of them is an UPDATE. *)
Lemma update_unchanged_sends_no_update :
  snd (fst (toy_update sanitizing "users" (VNum 7) [("name", VStr "Alice")]
                       true fresh))
  = [schema_lookup; schema_lookup; row_lookup]
  /\ DB.updates [schema_lookup; schema_lookup; row_lookup] = [].
Proof. split; vm_compute; reflexivity. Qed.

(** A plain update, sanitization off. *)
Lemma update_stamps_modified_witness :
  exists rest,
    snd (fst (toy_update numbered "users" (VNum 7) [("name", VStr "Bob")]
                         false fresh))
    = [Statement ("UPDATE " +:+ quoted "users" +:+ " SET modified = now(), "
                  +:+ rest)
                 (Some [VStr "Bob"; VNum 1; VNum 7])].
Proof.
  exact (proj1 (DB.update_stamps_modified
                  toy_db toy_stringify toy_isEqual toy_loose_eq numbered
                  "users" (VNum 7) [("name", VStr "Bob")] false fresh fresh
                  (Sanitized [("name", VStr "Bob")] None)
                  eq_refl eq_refl eq_refl)).
Defined.

(** C10: sanitization on, the status column of type [bit], the data map
    setting it to 0. The value is coerced to the text ['0'], which is
    truthy, and the SET clause gets no assignment of the Active value. *)
Lemma update_falsy_status_not_reasserted :
  truthy (get [("datastateid", VNum 0)] "datastateid") = false
  /\ snd (fst (toy_update sanitizing "users" (VNum 7)
                          [("datastateid", VNum 0)] false fresh))
     = [schema_lookup;
        Statement
          ("UPDATE " +:+ quoted "users"
           +:+ " SET modified = now(), datastateid = $1 WHERE usersid = $2 RETURNING *")
          (Some [VStr "0"; VNum 7])].
Proof. split; vm_compute; reflexivity. Qed.

(** A data map that leaves the status column out. *)
Lemma update_reasserts_active_witness :
  exists where_part key_values,
    DB.update_statement numbered "users" (VNum 7) [("name", VStr "Bob")]
    = ("UPDATE " +:+ quoted "users"
       +:+ " SET name = $1, datastateid = $2 WHERE " +:+ where_part
       +:+ " RETURNING *",
       [VStr "Bob"; VNum 1] ++ key_values).
Proof.
  exact (proj1 (DB.update_reasserts_active
                  toy_db toy_stringify toy_isEqual toy_loose_eq numbered
                  "users" (VNum 7) [("name", VStr "Bob")] "datastateid"
                  eq_refl ltac:(discriminate) eq_refl)).
Defined.

(** C7: [select] on a database that fails. The promise is rejected with a
    new error that has no [args]. *)
Lemma select_failure_carries_no_args :
  down_select numbered "users" [("name", VStr "Bob")] VNull fresh
  = ((tt, [Statement ("SELECT * FROM " +:+ quoted "users"
                      +:+ " WHERE name = $1 AND datastateid = 1")
                     (Some [VStr "Bob"])]),
     Rejected (Error "Failed select()" ArgsNone)).
Proof. vm_compute. reflexivity. Qed.

(** [insert] on a database that fails. *)
Lemma failure_is_rejected_once_witness :
  down_insert numbered "users" [("name", VStr "Bob")] VNull [] fresh
  = ((tt, [Statement ("INSERT INTO " +:+ quoted "users"
                      +:+ " (name) VALUES ($1) RETURNING usersid")
                     (Some [VStr "Bob"])]),
     Rejected (Error "connection refused" (ArgsValues [VStr "Bob"]))).
Proof.
  exact (proj1 (DB.failure_is_rejected_once
                  down_db toy_stringify toy_isEqual toy_loose_eq numbered
                  "users" tt tt tt [] []
                  (Sanitized [("name", VStr "Bob")] None)
                  (Error "connection refused" ArgsNone))
               [("name", VStr "Bob")] VNull [] eq_refl eq_refl).
Defined.

(** C4: an upsert. The statement sent assigns [modified = now()] in its
    DO UPDATE SET clause, besides the [conflictUpdate] column and the
    status column. *)
Lemma insert_upsert_also_stamps :
  snd (fst (toy_insert numbered "users" [("name", VStr "Bob")]
                       (VArr [VStr "name"]) ["name"] fresh))
  = [Statement
       ("INSERT INTO " +:+ quoted "users"
        +:+ " (name) VALUES ($1)  ON CONFLICT (name) DO UPDATE SET modified = now(), name = EXCLUDED.name, datastateid = 1 RETURNING usersid")
       (Some [VStr "Bob"])].
Proof. vm_compute. reflexivity. Qed.

(** An upsert on [name]. *)
Lemma insert_conflict_clause_witness :
  DB.stamp (DB.insert_sql numbered "users" [("name", VStr "Bob")]
                          (VArr [VStr "name"]) ["name"])
  = "INSERT INTO " +:+ quoted "users"
    +:+ " (name) VALUES ($1)  ON CONFLICT (name) DO UPDATE SET modified = now(), name = EXCLUDED.name, datastateid = 1 RETURNING usersid".
Proof.
  exact (proj2 (proj2 (DB.insert_conflict_clause numbered "users"
                         [("name", VStr "Bob")] ["name"])
                      "name" [])
               eq_refl).
Defined.

(** C9: a row whose category is [null] and a row whose category is the
    text [null]. The two values differ and the rows share one group. *)
Lemma buildIndex_null_and_text_share_a_group :
  let row1 := [("cat", VNull); ("id", VNum 1)] in
  let row2 := [("cat", VStr "null"); ("id", VNum 2)] in
  get row1 "cat" <> get row2 "cat"
  /\ match buildIndex (Some [row1; row2]) "cat" with
     | Some (Result _ (IndexBy groups)) =>
         groups !! "null" = Some [row1; row2]
     | _ => False
     end.
Proof. split; [discriminate | vm_compute; reflexivity]. Qed.

(** The three rows of the specification's example, indexed by [cat]. *)
Lemma buildIndex_groups_witness :
  let row1 := [("cat", VStr "x"); ("id", VNum 1)] in
  let row2 := [("cat", VStr "x"); ("id", VNum 2)] in
  let row3 := [("cat", VStr "y"); ("id", VNum 3)] in
  exists groups,
    buildIndex (Some [row1; row2; row3]) "cat"
    = Some (Result [row1; row2; row3] (IndexBy groups))
    /\ groups !! "x" = Some [row1; row2]
    /\ groups !! "y" = Some [row3].
Proof.
  intros row1 row2 row3.
  destruct (DB.buildIndex_groups "cat" row1 [row2; row3]
              ltac:(discriminate) eq_refl eq_refl eq_refl)
    as (groups & Hbuilt & Hrows & _).
  exists groups. split; [exact Hbuilt |]. split.
  - exact (Hrows row1 (or_introl eq_refl)).
  - exact (Hrows row3 (or_intror (or_intror (or_introl eq_refl)))).
Defined.

(** ** Further runs on the small database *)

Definition half_update :=
  DB.update half_db toy_stringify toy_isEqual toy_loose_eq.
Definition down_sanitizeFields :=
  DB.sanitizeFields down_db toy_stringify toy_isEqual toy_loose_eq.
Definition empty_selectOne :=
  DB.selectOne empty_db toy_stringify toy_isEqual toy_loose_eq.

(** An UPDATE text: the timestamp goes after its [SET ]. *)
Lemma stamp_shape_witness :
  exists pre post,
    "UPDATE t SET a = 1" = pre +:+ "SET " +:+ post
    /\ includes "SET " (pre +:+ "SET") = false
    /\ DB.stamp "UPDATE t SET a = 1"
       = pre +:+ "SET modified = now(), " +:+ post.
Proof. exact (proj2 (DB.stamp_shape "UPDATE t SET a = 1") eq_refl). Defined.

(** A category that is the word [constructor]: the grouping throws. *)
Lemma buildIndex_when_witness :
  buildIndex (Some [[("cat", VStr "x")]; [("cat", VStr "constructor")]]) "cat"
  = None.
Proof.
  exact (proj1 (proj2 (proj2 (proj2 (DB.buildIndex_when "cat")
                                    [("cat", VStr "x")]
                                    [[("cat", VStr "constructor")]]
                                    ltac:(discriminate))))
               eq_refl eq_refl eq_refl).
Defined.

(** Two rows, the second without the index column. *)
Lemma buildIndex_files_missing_under_undefined_witness :
  exists groups filed,
    buildIndex (Some [[("cat", VStr "x")]; [("id", VNum 2)]]) "cat"
    = Some (Result [[("cat", VStr "x")]; [("id", VNum 2)]] (IndexBy groups))
    /\ groups !! "undefined" = Some filed
    /\ In [("id", VNum 2)] filed.
Proof.
  exact (DB.buildIndex_files_missing_under_undefined
           "cat" [("cat", VStr "x")] [("id", VNum 2)] [[("id", VNum 2)]]
           ltac:(discriminate) eq_refl eq_refl eq_refl eq_refl
           (or_introl eq_refl) eq_refl).
Defined.

(** The schema lookup on a database that fails. *)
Lemma sanitizeFields_never_rejects_witness :
  down_sanitizeFields sanitizing "users" [("name", VStr "Bob")] VNull fresh
  = ((tt, [schema_lookup]), Unsettled).
Proof.
  exact (proj2 (DB.sanitizeFields_never_rejects
                  down_db toy_stringify toy_isEqual toy_loose_eq sanitizing
                  "users" [("name", VStr "Bob")] VNull tt [])
               eq_refl tt (Error "connection refused" ArgsNone) eq_refl).
Defined.

(** [insert] with sanitization on, on a database that fails. *)
Lemma schema_failure_hangs_witness :
  down_insert sanitizing "users" [("name", VStr "Bob")] VNull [] fresh
  = ((tt, [schema_lookup]), Unsettled).
Proof.
  exact (proj1 (proj2 (proj2 (DB.schema_failure_hangs
                                down_db toy_stringify toy_isEqual toy_loose_eq
                                sanitizing "users" tt tt []
                                (Error "connection refused" ArgsNone)
                                eq_refl eq_refl)))
               [("name", VStr "Bob")] VNull []).
Defined.

(** The schema is found and the lookup of row 7 fails. *)
Lemma compare_lookup_failure_hangs_witness :
  half_update sanitizing "users" (VNum 7) [("name", VStr "Bob")] true fresh
  = ((tt, [schema_lookup; schema_lookup; row_lookup]), Unsettled).
Proof.
  exact (proj1 (DB.compare_lookup_failure_hangs
                  half_db toy_stringify toy_isEqual toy_loose_eq sanitizing
                  "users" (VNum 7) [("name", VStr "Bob")] tt tt []
                  toy_columns (tt, [schema_lookup; schema_lookup; row_lookup])
                  (Error "Failed select()" ArgsNone)
                  eq_refl eq_refl eq_refl eq_refl)).
Defined.

(** The second of two fields. *)
Lemma placeholders_follow_arguments_witness :
  nth_error (DB.assignments 1 [("a", VNum 1); ("b", VStr "x")]) 1
  = Some "b = $2"
  /\ nth_error (DB.indexes_from 1 [("a", VNum 1); ("b", VStr "x")]) 1
     = Some "$2"
  /\ nth_error (keys [("a", VNum 1); ("b", VStr "x")]) 1 = Some "b"
  /\ nth_error (vals [("a", VNum 1); ("b", VStr "x")]) 1 = Some (VStr "x").
Proof.
  exact (DB.placeholders_follow_arguments
           [("a", VNum 1); ("b", VStr "x")] 1 "b" (VStr "x") eq_refl).
Defined.

(** A scalar id after one field and the status assignment. *)
Lemma update_where_clause_witness :
  DB.update_statement numbered "users" (VNum 7) [("name", VStr "Bob")]
  = ("UPDATE " +:+ quoted "users"
     +:+ " SET name = $1, datastateid = $2 WHERE usersid = $3 RETURNING *",
     [VStr "Bob"; VNum 1; VNum 7]).
Proof.
  exact (proj1 (DB.update_where_clause numbered "users"
                  [("name", VStr "Bob")])
               (VNum 7) eq_refl).
Defined.

(** A filter that asks for the rows of status 2. *)
Lemma select_explicit_status_witness :
  DB.select_sql numbered "users" [("datastateid", VNum 2)]
                [("datastateid", VNum 2)] VNull
  = "SELECT * FROM " +:+ quoted "users" +:+ " WHERE datastateid = $1".
Proof.
  exact (DB.select_explicit_status numbered "users" [("datastateid", VNum 2)]
           [("datastateid", VNum 2)] VNull "datastateid" eq_refl
           ltac:(discriminate)).
Defined.

(** An update that archives row 7. *)
Lemma update_explicit_status_witness :
  exists where_part key_values,
    DB.update_statement numbered "users" (VNum 7) [("datastateid", VNum 3)]
    = ("UPDATE " +:+ quoted "users" +:+ " SET datastateid = $1 WHERE "
       +:+ where_part +:+ " RETURNING *",
       [VNum 3] ++ key_values).
Proof.
  exact (DB.update_explicit_status numbered "users" (VNum 7)
           [("datastateid", VNum 3)]
           (or_intror (ex_intro _ "datastateid" (conj eq_refl eq_refl)))).
Defined.

(** A filter on a column the table does not have. *)
Lemma select_sanitizes_filter_witness :
  snd (fst (toy_select sanitizing "users" [("bogus_col", VNum 1)] VNull fresh))
  = [schema_lookup;
     Statement ("SELECT * FROM " +:+ quoted "users"
                +:+ " WHERE datastateid = 1")
               (Some [])].
Proof.
  exact (proj1 (DB.select_sanitizes_filter
                  toy_db toy_stringify toy_isEqual toy_loose_eq sanitizing
                  "users" [("bogus_col", VNum 1)] VNull tt tt [] toy_columns
                  eq_refl eq_refl)).
Defined.

(** The name of row 7 set to what it already is, without the status
    flag. *)
Lemma update_without_compare_writes_witness :
  snd (fst (toy_update sanitizing "users" (VNum 7) [("name", VStr "Alice")]
                       false fresh))
  = [schema_lookup;
     Statement
       ("UPDATE " +:+ quoted "users"
        +:+ " SET modified = now(), name = $1, datastateid = $2 WHERE usersid = $3 RETURNING *")
       (Some [VStr "Alice"; VNum 1; VNum 7])].
Proof.
  exact (proj1 (proj2 (DB.update_without_compare_writes
                         toy_db toy_stringify toy_isEqual toy_loose_eq
                         sanitizing "users" (VNum 7) [("name", VStr "Alice")]
                         false fresh (tt, [schema_lookup])
                         (Sanitized [("name", VStr "Alice")] None)
                         eq_refl eq_refl))).
Defined.

(** The integer key of the table. *)
Lemma sanitize_plain_columns_identity_witness :
  fst (DB.sanitize_loop toy_stringify toy_loose_eq toy_columns VNull []
                        [("usersid", VNum 7)])
  = [("usersid", VNum 7)].
Proof.
  apply DB.sanitize_plain_columns_identity.
  intros field v [Heq | []]. inversion Heq; subst.
  exists (column "usersid" "integer"). split; reflexivity.
Defined.

(** A falsy value in the [bit] column. *)
Lemma sanitized_values_witness :
  exists v col,
    In ("datastateid", v) [("datastateid", VNum 0)]
    /\ DB.find_column toy_loose_eq toy_columns "datastateid" = Some col
    /\ (get col "data_type" = VStr "bit" ->
        VStr "0" = VStr (if truthy v then "1" else "0"))
    /\ (get col "data_type" = VStr "character varying" ->
        VStr "0" = match v with VNull => VNull | _ => VStr (to_string v) end).
Proof.
  exact (DB.sanitized_values toy_stringify toy_loose_eq toy_columns VNull []
           [("datastateid", VNum 0)] "datastateid" (VStr "0")
           (or_introl eq_refl)).
Defined.

(** No row matches. *)
Lemma selectOne_first_or_empty_witness :
  empty_selectOne numbered "users" [("name", VStr "Bob")] fresh
  = ((tt, [Statement ("SELECT * FROM " +:+ quoted "users"
                      +:+ " WHERE name = $1 AND datastateid = 1")
                     (Some [VStr "Bob"])]),
     Resolved []).
Proof.
  exact (DB.selectOne_first_or_empty
           empty_db toy_stringify toy_isEqual toy_loose_eq numbered "users"
           [("name", VStr "Bob")] tt tt tt [] []
           (Sanitized [("name", VStr "Bob")] None) [] eq_refl eq_refl).
Defined.

(** The id of the inserted row. *)
Lemma insert_resolves_first_id_witness :
  toy_insert numbered "users" [("name", VStr "Bob")] VNull [] fresh
  = ((tt, [Statement ("INSERT INTO " +:+ quoted "users"
                      +:+ " (name) VALUES ($1) RETURNING usersid")
                     (Some [VStr "Bob"])]),
     Resolved (VNum 7)).
Proof.
  exact (DB.insert_resolves_first_id
           toy_db toy_stringify toy_isEqual toy_loose_eq numbered "users"
           [("name", VStr "Bob")] VNull [] tt tt tt [] []
           (Sanitized [("name", VStr "Bob")] None) [toy_row]
           eq_refl eq_refl).
Defined.

(** A constraint named in the conflict text. *)
Lemma insert_conflict_forms_witness :
  DB.insert_sql numbered "users" [("name", VStr "Bob")]
                (VStr "ON CONSTRAINT users_name_key") ["name"]
  = "INSERT INTO " +:+ quoted "users"
    +:+ " (name) VALUES ($1)  ON CONFLICT ON CONSTRAINT users_name_key DO UPDATE SET name = EXCLUDED.name, datastateid = 1 RETURNING usersid".
Proof.
  exact (proj2 (proj2 (DB.insert_conflict_forms numbered "users"
                         [("name", VStr "Bob")] ["name"]))
               "ON CONSTRAINT users_name_key" ltac:(discriminate)).
Defined.
